(** * A verified model of the task service of the to-do application

    The development embeds [app/models.py] and [app/task_service.py] and
    proves the properties the specification states about them.

    - Part 1: the data model ([Task], [TaskCreate], [TaskUpdate]).
    - Part 2: the storage gateway: a table of rows keyed by primary key, and
      a session with its unit of work (attached instances, commit, refresh).
    - Part 3: the seven service operations, one definition per method of
      [TaskService], written in the session monad in the order of the code.
    - Part 4: the vocabulary of the statements: stored records, sequences
      of calls, the invariant of the primary-key sequence.
    - Part 5: the operations in closed form, then the properties of the
      service, each under the number of the claim it settles. *)

From stdpp Require Import gmap strings list fin_maps sorting.

(* ===================================================================== *)
(** * Part 1. Data model ([app/models.py])                                 *)
(* ===================================================================== *)

(** A naive UTC instant, counted in microseconds (the resolution of
    Python's [datetime]). *)
Definition datetime : Type := Z.

(** What Python raises in the paths of this program. *)
Inductive exn : Type :=
  | ValidationError       (* a schema constraint is violated *)
  | InvalidRequestError   (* the session is asked about a foreign instance *)
  | ReferenceError.       (* a reference without instance is followed *)

(** The result of evaluating a Python expression: a value or a raised
    exception. *)
Inductive Except (A : Type) : Type :=
  | Ok (a : A)
  | Raise (e : exn).
Arguments Ok {A} a.
Arguments Raise {A} e.

(** A keyword argument of a constructor call: left out, or passed. *)
Inductive kwarg (A : Type) : Type :=
  | Omitted
  | Passed (a : A).
Arguments Omitted {A}.
Arguments Passed {A} a.

(** [Field(default=d)]: the value of a field whose keyword may be left out. *)
Definition field_default {A} (d : A) (k : kwarg A) : A :=
  match k with Omitted => d | Passed a => a end.

(** [Field(max_length=200)] on the title fields. *)
Definition max_length : nat := 200.

(** [class Task(SQLModel, table=True)].  [id] is [Optional[int]]: it is
    [None] until the storage layer assigns the primary key. *)
Record Task : Type := mkTask {
  id : option Z;
  title : string;
  completed : bool;
  created_at : datetime
}.

(** [Task(title=...)]: [id] defaults to [None], [completed] to [False], and
    [created_at] to what [datetime.utcnow] reads at construction; the
    reading of the clock is the argument [utcnow]. *)
Definition Task_init (utcnow : datetime) (title : string) : Task :=
  {| id := None; title := title; completed := false; created_at := utcnow |}.

(** [class TaskCreate(SQLModel, table=False)]. *)
Module TaskCreate.

Record t : Type := mk { title : string }.

(** [TaskCreate(title=...)]: the schema validates the length. *)
Definition init (title : string) : Except t :=
  if decide (String.length title ≤ max_length) then Ok (mk title)
  else Raise ValidationError.

End TaskCreate.

(** [class TaskUpdate(SQLModel, table=False)]: both fields are optional and
    default to [None]. *)
Module TaskUpdate.

Record t : Type := mk { title : option string; completed : option bool }.

(** [TaskUpdate(title=..., completed=...)], each keyword passed or not.
    The length constraint applies to a title that is a string. *)
Definition init (title : kwarg (option string))
    (completed : kwarg (option bool)) : Except t :=
  let title := field_default None title in
  let completed := field_default None completed in
  match title with
  | Some s =>
      if decide (String.length s ≤ max_length) then Ok (mk title completed)
      else Raise ValidationError
  | None => Ok (mk title completed)
  end.

End TaskUpdate.

(* ===================================================================== *)
(** * Part 2. Storage gateway                                              *)
(* ===================================================================== *)

(** The service reaches the store through a session: [get], [exec], [add],
    [delete], [commit] and [refresh].  The session keeps the instances it
    loaded or was given; attribute assignments change an instance, not the
    store; [commit] writes the attached instances (an instance that was
    not changed rewrites its row as it is) and removes the rows of the
    instances marked for deletion.  Failures of the engine itself
    (connection, constraint violation) are outside the model. *)

(** The columns of table [tasks] other than the primary key. *)
Record Row : Type := mkRow {
  row_title : string;
  row_completed : bool;
  row_created_at : datetime
}.

(** Modelled from the spec: [app/database.py] (the engine, [get_session] and
    [reset_db]) is not among the sources.  The store is the table [tasks],
    a finite map from primary key to row, together with the sequence the
    storage layer draws new primary keys from ("integer, unique, assigned by
    the storage layer on creation ... never reused"). *)
Record Database : Type := mkDatabase {
  tasks : gmap Z Row;
  tasks_id_seq : Z
}.

(** The store with no rows whose sequence stands at [n]. *)
Definition empty_store (n : Z) : Database :=
  {| tasks := ∅; tasks_id_seq := n |}.

(** Modelled from the spec: [reset_db], "a full wipe used only for test
    isolation": no rows, and the sequence back at its first value. *)
Definition reset_db : Database := empty_store 1.

(** The instance the session builds from a row, and the row it writes for
    an instance. *)
Definition load (k : Z) (r : Row) : Task :=
  {| id := Some k; title := row_title r; completed := row_completed r;
     created_at := row_created_at r |}.

Definition row_of (t : Task) : Row :=
  {| row_title := title t; row_completed := completed t;
     row_created_at := created_at t |}.

(** The instance of a selected row. *)
Definition load_row (kr : Z * Row) : Task := load kr.1 kr.2.

(** Python variables hold references to instances. *)
Definition ref : Type := nat.

(** The calls a service method makes on its session, in order. *)
Inductive GatewayCall : Type :=
  | call_get (k : Z)
  | call_exec
  | call_add
  | call_delete
  | call_commit
  | call_refresh.

(** A session over the store.  [bind] is the committed store; [objects] are
    the [Task] instances that exist during the call, addressed by position;
    [identity] lists the instances attached to the session (loaded from the
    store or added), [deleted] those marked for deletion; [calls] records
    the gateway calls made so far. *)
Record Session : Type := mkSession {
  bind : Database;
  objects : list Task;
  identity : list ref;
  deleted : list ref;
  calls : list GatewayCall
}.

(** The session a [with] block starts in. *)
Definition fresh_session (d : Database) : Session :=
  {| bind := d; objects := []; identity := []; deleted := []; calls := [] |}.

(** Computations inside [with get_session() as session:]. *)
Definition M (A : Type) : Type := Session → Except A * Session.

Definition ret {A} (a : A) : M A := λ s, (Ok a, s).

Definition bnd {A B} (m : M A) (k : A → M B) : M B :=
  λ s, match m s with
       | (Ok a, s') => k a s'
       | (Raise e, s') => (Raise e, s')
       end.

Definition raise {A} (e : exn) : M A := λ s, (Raise e, s).

Declare Scope session_scope.
Delimit Scope session_scope with session.
Notation "x <- m ;; k" := (bnd m (λ x, k))
  (at level 100, m at next level, right associativity) : session_scope.
Notation "m ;;; k" := (bnd m (λ _, k))
  (at level 100, right associativity) : session_scope.
Open Scope session_scope.

Definition gets {A} (f : Session → A) : M A := λ s, (Ok (f s), s).
Definition modify (f : Session → Session) : M unit := λ s, (Ok tt, f s).

Definition set_bind (d : Database) (s : Session) : Session :=
  {| bind := d; objects := objects s; identity := identity s;
     deleted := deleted s; calls := calls s |}.
Definition set_objects (o : list Task) (s : Session) : Session :=
  {| bind := bind s; objects := o; identity := identity s;
     deleted := deleted s; calls := calls s |}.
Definition set_identity (i : list ref) (s : Session) : Session :=
  {| bind := bind s; objects := objects s; identity := i;
     deleted := deleted s; calls := calls s |}.
Definition set_deleted (d : list ref) (s : Session) : Session :=
  {| bind := bind s; objects := objects s; identity := identity s;
     deleted := d; calls := calls s |}.
Definition log (c : GatewayCall) : M unit :=
  modify (λ s, {| bind := bind s; objects := objects s;
                  identity := identity s; deleted := deleted s;
                  calls := calls s ++ [c] |}).

(** [for x in xs: f(x)], collecting the results. *)
Fixpoint for_each {A B} (f : A → M B) (xs : list A) : M (list B) :=
  match xs with
  | [] => ret []
  | x :: xs => y <- f x ;; ys <- for_each f xs ;; ret (y :: ys)
  end.

(** ** Instances *)

(** A new instance; the result is the reference to it. *)
Definition new_object (t : Task) : M ref :=
  r <- gets (λ s, length (objects s)) ;;
  modify (λ s, set_objects (objects s ++ [t]) s) ;;;
  ret r.

(** The attributes of the instance behind a reference. *)
Definition getattr (r : ref) : M Task :=
  o <- gets (λ s, objects s !! r) ;;
  match o with
  | Some t => ret t
  | None => raise ReferenceError
  end.

(** Assignment to attributes: the instance is updated in place. *)
Definition setattr (r : ref) (f : Task → Task) : M unit :=
  t <- getattr r ;;
  modify (λ s, set_objects (<[r := f t]> (objects s)) s).

Definition set_id (v : option Z) (t : Task) : Task :=
  {| id := v; title := title t; completed := completed t;
     created_at := created_at t |}.
Definition set_title (v : string) (t : Task) : Task :=
  {| id := id t; title := v; completed := completed t;
     created_at := created_at t |}.
Definition set_completed (v : bool) (t : Task) : Task :=
  {| id := id t; title := title t; completed := v;
     created_at := created_at t |}.

(** ** The session's operations *)

Definition attach (r : ref) : M unit :=
  modify (λ s, if decide (r ∈ identity s) then s
               else set_identity (identity s ++ [r]) s).

(** [session.get(Task, k)]: the row with primary key [k] as an attached
    instance, or [None]. *)
Definition session_get (k : Z) : M (option ref) :=
  log (call_get k) ;;;
  row <- gets (λ s, tasks (bind s) !! k) ;;
  match row with
  | None => ret None
  | Some row =>
      r <- new_object (load k row) ;;
      attach r ;;;
      ret (Some r)
  end.

(** [session.add(task)]: attaches the instance; nothing is written before
    the commit. *)
Definition session_add (r : ref) : M unit :=
  log call_add ;;;
  attach r.

(** [session.delete(task)]: marks a persistent instance for deletion. *)
Definition session_delete (r : ref) : M unit :=
  log call_delete ;;;
  t <- getattr r ;;
  attached <- gets (λ s, bool_decide (r ∈ identity s)) ;;
  match id t with
  | Some _ =>
      if attached then modify (λ s, set_deleted (deleted s ++ [r]) s)
      else raise InvalidRequestError
  | None => raise InvalidRequestError
  end.

(** Writing one attached instance at a commit: an instance without primary
    key is inserted under the next value of the sequence, which it receives
    as its [id]; an instance with a primary key overwrites its row. *)
Definition flush_write (r : ref) : M unit :=
  t <- getattr r ;;
  match id t with
  | None =>
      k <- gets (λ s, tasks_id_seq (bind s)) ;;
      modify (λ s, set_bind {| tasks := <[k := row_of t]> (tasks (bind s));
                               tasks_id_seq := k + 1 |} s) ;;;
      setattr r (set_id (Some k))
  | Some k =>
      modify (λ s, set_bind {| tasks := <[k := row_of t]> (tasks (bind s));
                               tasks_id_seq := tasks_id_seq (bind s) |} s)
  end.

Definition flush_delete (r : ref) : M unit :=
  t <- getattr r ;;
  match id t with
  | None => raise InvalidRequestError
  | Some k =>
      modify (λ s, set_bind {| tasks := delete k (tasks (bind s));
                               tasks_id_seq := tasks_id_seq (bind s) |} s)
  end.

(** [session.commit()]: the attached instances are written, the rows of the
    instances marked for deletion are removed, and those instances leave
    the session. *)
Definition session_commit : M unit :=
  log call_commit ;;;
  rs <- gets identity ;;
  for_each flush_write rs ;;;
  ds <- gets deleted ;;
  for_each flush_delete ds ;;;
  modify (λ s, set_deleted []
                 (set_identity (filter (λ r, r ∉ deleted s) (identity s)) s)).

(** [session.refresh(task)]: the attributes are read again from the row of
    the instance. *)
Definition session_refresh (r : ref) : M unit :=
  log call_refresh ;;;
  t <- getattr r ;;
  attached <- gets (λ s, bool_decide (r ∈ identity s)) ;;
  match id t with
  | Some k =>
      row <- gets (λ s, tasks (bind s) !! k) ;;
      match row with
      | Some row =>
          if attached then setattr r (λ _, load k row)
          else raise InvalidRequestError
      | None => raise InvalidRequestError
      end
  | None => raise InvalidRequestError
  end.

(** The two statements the service executes. *)
Inductive Statement : Type :=
  | select_Task
  | select_Task_order_by_desc_created_at.

(** [ORDER BY created_at DESC] on rows. *)
Definition desc_created_at (a b : Z * Row) : Prop :=
  (row_created_at b.2 ≤ row_created_at a.2)%Z.

#[global] Instance desc_created_at_dec a b : Decision (desc_created_at a b).
Proof. unfold desc_created_at. apply _. Defined.

(** The rows a statement selects.  Without [ORDER BY] the order is the
    engine's; with it the rows are sorted, rows with equal [created_at] in
    an order the engine chooses. *)
Definition select_rows (q : Statement) (d : Database) : list (Z * Row) :=
  match q with
  | select_Task => map_to_list (tasks d)
  | select_Task_order_by_desc_created_at =>
      merge_sort desc_created_at (map_to_list (tasks d))
  end.

(** [session.exec(statement).all()]: one attached instance per row. *)
Definition session_exec (q : Statement) : M (list ref) :=
  log call_exec ;;;
  rows <- gets (λ s, select_rows q (bind s)) ;;
  for_each (λ kr, r <- new_object (load_row kr) ;; attach r ;;; ret r) rows.

(** What a call of a service method leaves behind: the value returned or
    the exception raised, the store, and the gateway calls it made. *)
Record Outcome (A : Type) : Type := mkOutcome {
  returned : Except A;
  store : Database;
  issued : list GatewayCall
}.
Arguments mkOutcome {A}.
Arguments returned {A}.
Arguments store {A}.
Arguments issued {A}.

(** Modelled from the spec: [with get_session() as session:] from
    [app/database.py], "scoped acquisition with guaranteed release".  The
    body runs in a fresh session over the store; at the end the session is
    closed and what it did not commit is gone. *)
Definition with_session {A} (body : M A) (d : Database) : Outcome A :=
  let '(v, s) := body (fresh_session d) in
  {| returned := v; store := bind s; issued := calls s |}.

(** [return task]: the caller receives the instance as it is at the end of
    the call. *)
Definition snapshot (r : ref) : M Task := getattr r.

(* ===================================================================== *)
(** * Part 3. The task service ([app/task_service.py])                     *)
(* ===================================================================== *)

(** [TaskService.create_task]; [utcnow] is the clock reading that
    [Task(...)] takes for [created_at]. *)
Definition create_task (utcnow : datetime) (task_data : TaskCreate.t)
    : Database → Outcome Task :=
  with_session (
    task <- new_object (Task_init utcnow (TaskCreate.title task_data)) ;;
    session_add task ;;;
    session_commit ;;;
    session_refresh task ;;;
    snapshot task).

(** [TaskService.get_all_tasks]. *)
Definition get_all_tasks : Database → Outcome (list Task) :=
  with_session (
    let statement := select_Task_order_by_desc_created_at in
    all <- session_exec statement ;;
    for_each snapshot all).

(** [TaskService.get_task_by_id]. *)
Definition get_task_by_id (task_id : Z) : Database → Outcome (option Task) :=
  with_session (
    task <- session_get task_id ;;
    match task with
    | None => ret None
    | Some task => t <- snapshot task ;; ret (Some t)
    end).

(** [TaskService.update_task]. *)
Definition update_task (task_id : Z) (task_update : TaskUpdate.t)
    : Database → Outcome (option Task) :=
  with_session (
    task <- session_get task_id ;;
    match task with
    | None => ret None
    | Some task =>
        (* Update only provided fields *)
        match TaskUpdate.title task_update with
        | Some v => setattr task (set_title v)
        | None => ret tt
        end ;;;
        match TaskUpdate.completed task_update with
        | Some v => setattr task (set_completed v)
        | None => ret tt
        end ;;;
        session_add task ;;;
        session_commit ;;;
        session_refresh task ;;;
        t <- snapshot task ;; ret (Some t)
    end).

(** [TaskService.toggle_task_completion]. *)
Definition toggle_task_completion (task_id : Z)
    : Database → Outcome (option Task) :=
  with_session (
    task <- session_get task_id ;;
    match task with
    | None => ret None
    | Some task =>
        old <- getattr task ;;
        setattr task (set_completed (negb (completed old))) ;;;
        session_add task ;;;
        session_commit ;;;
        session_refresh task ;;;
        t <- snapshot task ;; ret (Some t)
    end).

(** [TaskService.delete_task]. *)
Definition delete_task (task_id : Z) : Database → Outcome bool :=
  with_session (
    task <- session_get task_id ;;
    match task with
    | None => ret false
    | Some task =>
        session_delete task ;;;
        session_commit ;;;
        ret true
    end).

(** [sum(1 for task in all_tasks if task.completed)]. *)
Definition sum_completed (all_tasks : list Task) : Z :=
  foldl Z.add 0%Z
    (map (λ _ : Task, 1%Z) (filter (λ task, completed task = true) all_tasks)).

(** [TaskService.get_task_statistics]; the result is the dictionary with
    the keys ["total"], ["completed"] and ["pending"]. *)
Definition get_task_statistics : Database → Outcome (gmap string Z) :=
  with_session (
    all <- session_exec select_Task ;;
    all_tasks <- for_each getattr all ;;
    let total := Z.of_nat (length all_tasks) in
    let completed := sum_completed all_tasks in
    let pending := (total - completed)%Z in
    ret (<["total" := total]>
          (<["completed" := completed]> (<["pending" := pending]> ∅)))).

(* ===================================================================== *)
(** * Part 4. Vocabulary of the statements                                *)
(* ===================================================================== *)

(** References handed out by a session are positions of existing
    instances. *)
Definition refs_bounded (s : Session) : Prop :=
  ∀ r, r ∈ identity s → r < length (objects s).

(** The row an update leaves: each field of the patch that is not [None]
    replaces the stored one. *)
Definition patched (p : TaskUpdate.t) (row : Row) : Row :=
  {| row_title := default (row_title row) (TaskUpdate.title p);
     row_completed := default (row_completed row) (TaskUpdate.completed p);
     row_created_at := row_created_at row |}.

(** The store with the row of primary key [k] replaced. *)
Definition write_row (k : Z) (row : Row) (d : Database) : Database :=
  {| tasks := <[k := row]> (tasks d); tasks_id_seq := tasks_id_seq d |}.

(** The gateway calls that persist an instance. *)
Definition written : list GatewayCall := [call_add; call_commit; call_refresh].

(** The row a toggle leaves. *)
Definition toggled (row : Row) : Row :=
  {| row_title := row_title row; row_completed := negb (row_completed row);
     row_created_at := row_created_at row |}.

(** The session after a statement was executed in a fresh one. *)
Definition loaded_session (q : Statement) (d : Database) : Session :=
  {| bind := d; objects := map load_row (select_rows q d);
     identity := seq 0 (length (select_rows q d));
     deleted := []; calls := [call_exec] |}.

(** The dictionary [{"total": t, "completed": c, "pending": p}]. *)
Definition statistics (t c p : Z) : gmap string Z :=
  <["total" := t]> (<["completed" := c]> (<["pending" := p]> ∅)).

(** [stored d k t]: in store [d], [get_task_by_id k] finds the record [t]. *)
Definition stored (d : Database) (k : Z) (t : Task) : Prop :=
  returned (get_task_by_id k d) = Ok (Some t).

(** A store with one task, for the examples. *)
Definition one_task : Database :=
  store (create_task 3%Z (TaskCreate.mk "Buy milk") reset_db).

(** The rows of the table whose [completed] column is true. *)
Definition completed_rows (m : gmap Z Row) : gmap Z Row :=
  filter (λ kr, row_completed kr.2 = true) m.

(** The [completed] flag of the task with the given id, if there is one. *)
Definition current_completed (task_id : Z) (d : Database) : option bool :=
  match returned (get_task_by_id task_id d) with
  | Ok (Some t) => Some (completed t)
  | _ => None
  end.

(** Toggling as the specification words it: "[update] with [completed] set
    to the negation of the current value".  Where there is no task, and so
    no current value, [c] stands for it. *)
Definition toggle_via_update (c : bool) (task_id : Z) (d : Database)
    : Outcome (option Task) :=
  let current := default c (current_completed task_id d) in
  update_task task_id (TaskUpdate.mk None (Some (negb current))) d.

(** A call of one of the seven service methods. *)
Inductive Call : Type :=
  | CreateTask (utcnow : datetime) (task_data : TaskCreate.t)
  | GetAllTasks
  | GetTaskById (task_id : Z)
  | UpdateTask (task_id : Z) (task_update : TaskUpdate.t)
  | ToggleTaskCompletion (task_id : Z)
  | DeleteTask (task_id : Z)
  | GetTaskStatistics.

(** The store a call leaves. *)
Definition call_store (c : Call) (d : Database) : Database :=
  match c with
  | CreateTask utcnow task_data => store (create_task utcnow task_data d)
  | GetAllTasks => store (get_all_tasks d)
  | GetTaskById task_id => store (get_task_by_id task_id d)
  | UpdateTask task_id task_update => store (update_task task_id task_update d)
  | ToggleTaskCompletion task_id => store (toggle_task_completion task_id d)
  | DeleteTask task_id => store (delete_task task_id d)
  | GetTaskStatistics => store (get_task_statistics d)
  end.

(** The store after the calls [cs], made one after the other. *)
Definition run (cs : list Call) (d : Database) : Database :=
  foldl (λ d c, call_store c d) d cs.

(** The sequence is ahead of every primary key in the table. *)
Definition fresh_ids (d : Database) : Prop :=
  map_Forall (λ k _, (k < tasks_id_seq d)%Z) (tasks d).

#[global] Instance fresh_ids_dec d : Decision (fresh_ids d).
Proof. unfold fresh_ids. apply _. Defined.

(** Creating tasks in sequence: each request is the clock reading at the
    call and the data passed; the results are what the calls returned, in
    order, and the store after the last call. *)
Fixpoint create_tasks (reqs : list (datetime * TaskCreate.t)) (d : Database)
    : list (Except Task) * Database :=
  match reqs with
  | [] => ([], d)
  | (utcnow, task_data) :: reqs =>
      let o := create_task utcnow task_data d in
      let '(rs, d') := create_tasks reqs (store o) in
      (returned o :: rs, d')
  end.

(** The clock readings of the requests are strictly increasing. *)
Definition clock_increasing (reqs : list (datetime * TaskCreate.t)) : Prop :=
  StronglySorted Z.lt reqs.*1.

(** After the creations [reqs] in the empty store, [get_all_tasks] returns
    the tasks that the creations returned, the most recently created
    first. *)
Definition newest_first (n : Z) (reqs : list (datetime * TaskCreate.t))
    : Prop :=
  let '(rs, d) := create_tasks reqs (empty_store n) in
  ∃ ts, rs = Ok <$> ts ∧ returned (get_all_tasks d) = Ok (reverse ts).

(** The rows that a sequence of creations writes, under the primary keys
    drawn from the sequence at [n]. *)
Fixpoint expected (n : Z) (reqs : list (datetime * TaskCreate.t))
    : list (Z * Row) :=
  match reqs with
  | [] => []
  | (utcnow, task_data) :: reqs =>
      (n, {| row_title := TaskCreate.title task_data; row_completed := false;
             row_created_at := utcnow |}) :: expected (n + 1) reqs
  end.

(** The table after the rows are inserted, first to last. *)
Definition insert_rows (m : gmap Z Row) (rows : list (Z * Row)) : gmap Z Row :=
  foldl (λ m kr, <[kr.1 := kr.2]> m) m rows.

(** [earlier a b]: row [a] was created strictly before row [b]. *)
Definition earlier (a b : Z * Row) : Prop :=
  (row_created_at a.2 < row_created_at b.2)%Z.

(** ** Vocabulary of the further properties *)

(** The patch that two updates amount to: a field the later patch provides
    wins, otherwise the earlier patch decides. *)
Definition later_patch (p1 p2 : TaskUpdate.t) : TaskUpdate.t :=
  TaskUpdate.mk
    (match TaskUpdate.title p2 with
     | Some v => Some v
     | None => TaskUpdate.title p1
     end)
    (match TaskUpdate.completed p2 with
     | Some v => Some v
     | None => TaskUpdate.completed p1
     end).

(** Every stored title is within the length constraint of the schemas. *)
Definition titles_bounded (d : Database) : Prop :=
  map_Forall (λ _ row, String.length (row_title row) ≤ max_length) (tasks d).

#[global] Instance titles_bounded_dec d : Decision (titles_bounded d).
Proof. unfold titles_bounded. apply _. Defined.

(** The data of the call went through its schema: [TaskCreate(...)] or
    [TaskUpdate(...)] accepted it. *)
Definition validated (c : Call) : Prop :=
  match c with
  | CreateTask _ task_data =>
      TaskCreate.init (TaskCreate.title task_data) = Ok task_data
  | UpdateTask _ task_update =>
      TaskUpdate.init (Passed (TaskUpdate.title task_update))
        (Passed (TaskUpdate.completed task_update)) = Ok task_update
  | _ => True
  end.

(** The number shown under a key of the statistics, if the call returned
    a dictionary with that key. *)
Definition statistic (key : string) (d : Database) : option Z :=
  match returned (get_task_statistics d) with
  | Ok r => r !! key
  | Raise _ => None
  end.

(** The count of a flag: 1 when it is true. *)
Definition as_count (b : bool) : nat := if b then 1 else 0.

(* ===================================================================== *)
(** * The page ([app/todo_app.py])                                         *)
(* ===================================================================== *)

(** The page calls the service from its event handlers.  The handlers are
    embedded with what they do to the widgets recorded as a list of calls:
    notifications, the value set on the input, the cards and task items
    created.  A string is the sequence of its code points, and the
    characters of the model are the code points below 256. *)

(** [c.isspace()]: the code points below 256 that Python counts as white
    space are 9 to 13, 28 to 32, 133 and 160. *)
Definition isspace (c : Ascii.ascii) : bool :=
  let n := Ascii.nat_of_ascii c in
  (9 <=? n) && (n <=? 13) || (28 <=? n) && (n <=? 32)
  || (n =? 133) || (n =? 160).

(** [s.lstrip()], [s.rstrip()] and [s.strip()]. *)
Fixpoint lstrip (s : string) : string :=
  match s with
  | EmptyString => EmptyString
  | String c s' => if isspace c then lstrip s' else s
  end.

Fixpoint rstrip (s : string) : string :=
  match s with
  | EmptyString => EmptyString
  | String c s' =>
      match rstrip s' with
      | EmptyString => if isspace c then EmptyString else String c EmptyString
      | r => String c r
      end
  end.

Definition strip (s : string) : string := rstrip (lstrip s).

(** The truth value of a string: false for the empty string only. *)
Definition bool_str (s : string) : bool :=
  match s with EmptyString => false | String _ _ => true end.

Module TodoApp.

(** The [type] of a notification. *)
Inductive NotifyType : Type := positive | negative | warning.

(** What a handler can see raised: an exception of a schema or of the
    service, or the [KeyError] of a dictionary. *)
Inductive Exception : Type :=
  | Propagated (e : exn)
  | KeyError (key : string).

(** The calls of a handler on the widgets and on the logger.  A message
    built as [f"...{str(e)}"] is recorded as its fixed part and the
    exception. *)
Inductive UiCall : Type :=
  | ui_notify (message : string) (type : NotifyType)
  | ui_notify_exception (message : string) (e : Exception) (type : NotifyType)
  | logger_error (message : string) (e : Exception)
  | task_input_set_value (value : string)
  | tasks_container_clear
  | stats_container_clear
  | stats_card (caption : string) (value : Z)
  | no_tasks_card
  | create_task_item (task : Task)
  | edit_dialog (title_input : string) (completed_checkbox : bool)
  | delete_dialog (title : string).

(** The state a handler works on: the store behind the service and the
    calls made on the widgets so far. *)
Record Page : Type := mkPage {
  database : Database;
  ui_calls : list UiCall
}.

Inductive Result (A : Type) : Type :=
  | Return (a : A)
  | Raised (e : Exception).
Arguments Return {A} a.
Arguments Raised {A} e.

(** Computations of a handler. *)
Definition UI (A : Type) : Type := Page → Result A * Page.

Definition pure {A} (a : A) : UI A := λ p, (Return a, p).

Definition and_then {A B} (m : UI A) (k : A → UI B) : UI B :=
  λ p, match m p with
       | (Return a, p') => k a p'
       | (Raised e, p') => (Raised e, p')
       end.

Declare Scope ui_scope.
Delimit Scope ui_scope with ui.
Notation "x <- m ;; k" := (and_then m (λ x, k))
  (at level 100, m at next level, right associativity) : ui_scope.
Notation "m ;;; k" := (and_then m (λ _, k))
  (at level 100, right associativity) : ui_scope.
#[local] Open Scope ui_scope.

(** [try: body except Exception as e: handler]. *)
Definition try_except {A} (body : UI A) (handler : Exception → UI A) : UI A :=
  λ p, match body p with
       | (Return a, p') => (Return a, p')
       | (Raised e, p') => handler e p'
       end.

(** A call on a widget or on the logger. *)
Definition ui (c : UiCall) : UI unit :=
  λ p, (Return tt, {| database := database p; ui_calls := ui_calls p ++ [c] |}).

(** A call of a method of [TaskService]. *)
Definition service {A} (method : Database → Outcome A) : UI A :=
  λ p, let o := method (database p) in
       (match returned o with
        | Ok a => Return a
        | Raise e => Raised (Propagated e)
        end,
        {| database := store o; ui_calls := ui_calls p |}).

(** The construction of a schema instance, which may fail validation. *)
Definition construct {A} (x : Except A) : UI A :=
  λ p, (match x with
        | Ok a => Return a
        | Raise e => Raised (Propagated e)
        end, p).

(** [stats[key]]. *)
Definition getitem (stats : gmap string Z) (key : string) : UI Z :=
  λ p, (match stats !! key with
        | Some v => Return v
        | None => Raised (KeyError key)
        end, p).

(** [for x in xs: f(x)]. *)
Fixpoint for_in {A} (xs : list A) (f : A → UI unit) : UI unit :=
  match xs with
  | [] => pure tt
  | x :: xs => f x ;;; for_in xs f
  end.

(** [create_statistics_cards]: the three cards show [str(stats[key])]; the
    number is recorded. *)
Definition create_statistics_cards : UI unit :=
  ui stats_container_clear ;;;
  stats <- service get_task_statistics ;;
  total <- getitem stats "total" ;;
  ui (stats_card "Total Tasks" total) ;;;
  completed <- getitem stats "completed" ;;
  ui (stats_card "Completed" completed) ;;;
  pending <- getitem stats "pending" ;;
  ui (stats_card "Pending" pending).

(** [refresh_tasks]. *)
Definition refresh_tasks : UI unit :=
  ui tasks_container_clear ;;;
  create_statistics_cards ;;;
  tasks <- service get_all_tasks ;;
  match tasks with
  | [] => ui no_tasks_card
  | _ => for_in tasks (λ task, ui (create_task_item task))
  end.

(** [add_task]; [task_input_value] is [task_input.value] when the handler
    runs and [utcnow] the clock reading if a task is created. *)
Definition add_task (utcnow : datetime) (task_input_value : option string)
    : UI unit :=
  let title := task_input_value in
  match title with
  | None => ui (ui_notify "Please enter a task title" warning)
  | Some title =>
      if negb (bool_str title) || negb (bool_str (strip title)) then
        ui (ui_notify "Please enter a task title" warning)
      else
        try_except (
          task_data <- construct (TaskCreate.init (strip title)) ;;
          service (create_task utcnow task_data) ;;;
          ui (task_input_set_value "") ;;;
          refresh_tasks ;;;
          ui (ui_notify "Task added successfully!" positive))
        (λ e,
          ui (logger_error "Error adding task: " e) ;;;
          ui (ui_notify_exception "Error adding task: " e negative))
  end.

(** [toggle_task_completion], the handler of the page. *)
Definition toggle_task_completion (task_id : option Z) : UI unit :=
  match task_id with
  | None => ui (ui_notify "Invalid task ID" warning)
  | Some task_id =>
      try_except (
        updated_task <- service (toggle_task_completion task_id) ;;
        match updated_task with
        | Some updated_task =>
            let status :=
              if completed updated_task then "completed" else "pending" in
            ui (ui_notify ("Task marked as " ++ status) positive) ;;;
            refresh_tasks
        | None => ui (ui_notify "Task not found" warning)
        end)
      (λ e,
        ui (logger_error "Error updating task: " e) ;;;
        ui (ui_notify_exception "Error updating task: " e negative))
  end.

(** [edit_task_dialog] up to [await dialog]: the result is whether the
    dialog was opened. *)
Definition edit_task_dialog (task_id : option Z) : UI bool :=
  match task_id with
  | None => ui (ui_notify "Invalid task ID" warning) ;;; pure false
  | Some task_id =>
      task <- service (get_task_by_id task_id) ;;
      match task with
      | None => ui (ui_notify "Task not found" warning) ;;; pure false
      | Some task =>
          ui (edit_dialog (title task) (completed task)) ;;; pure true
      end
  end.

(** [edit_task_dialog] from [result = await dialog] on: [result] is what
    the dialog was submitted with ([None] when it was dismissed), and the
    two values are those of its widgets at that moment. *)
Definition edit_task_dialog_result (task_id : Z) (result : option string)
    (title_input_value : option string) (completed_checkbox_value : bool)
    : UI unit :=
  if decide (result = Some "save") then
    let new_title := title_input_value in
    match new_title with
    | None => ui (ui_notify "Please enter a task title" warning)
    | Some new_title =>
        if negb (bool_str new_title) || negb (bool_str (strip new_title)) then
          ui (ui_notify "Please enter a task title" warning)
        else
          try_except (
            update_data <-
              construct (TaskUpdate.init (Passed (Some (strip new_title)))
                           (Passed (Some completed_checkbox_value))) ;;
            updated_task <- service (update_task task_id update_data) ;;
            match updated_task with
            | Some _ =>
                ui (ui_notify "Task updated successfully!" positive) ;;;
                refresh_tasks
            | None => ui (ui_notify "Task not found" warning)
            end)
          (λ e,
            ui (logger_error "Error updating task: " e) ;;;
            ui (ui_notify_exception "Error updating task: " e negative))
    end
  else pure tt.

(** [confirm_delete_task] up to [await dialog]. *)
Definition confirm_delete_task (task_id : option Z) : UI bool :=
  match task_id with
  | None => ui (ui_notify "Invalid task ID" warning) ;;; pure false
  | Some task_id =>
      task <- service (get_task_by_id task_id) ;;
      match task with
      | None => ui (ui_notify "Task not found" warning) ;;; pure false
      | Some task => ui (delete_dialog (title task)) ;;; pure true
      end
  end.

(** [confirm_delete_task] from [result = await dialog] on. *)
Definition confirm_delete_task_result (task_id : Z) (result : option string)
    : UI unit :=
  if decide (result = Some "delete") then
    try_except (
      success <- service (delete_task task_id) ;;
      if success : bool then
        ui (ui_notify "Task deleted successfully!" positive) ;;;
        refresh_tasks
      else ui (ui_notify "Task not found" warning))
    (λ e,
      ui (logger_error "Error deleting task: " e) ;;;
      ui (ui_notify_exception "Error deleting task: " e negative))
  else pure tt.

(** What happens on the page: a click or a key, or the answer to a
    dialog. *)
Inductive Event : Type :=
  | AddTask (utcnow : datetime) (task_input_value : option string)
  | Refresh
  | ToggleCheckbox (task_id : option Z)
  | EditButton (task_id : option Z)
  | EditDialogResult (task_id : Z) (result : option string)
      (title_input_value : option string) (completed_checkbox_value : bool)
  | DeleteButton (task_id : option Z)
  | DeleteDialogResult (task_id : Z) (result : option string).

(** The handler of an event. *)
Definition handle (e : Event) : UI unit :=
  match e with
  | AddTask utcnow task_input_value => add_task utcnow task_input_value
  | Refresh => refresh_tasks
  | ToggleCheckbox task_id => toggle_task_completion task_id
  | EditButton task_id => edit_task_dialog task_id ;;; pure tt
  | EditDialogResult task_id result title_input_value
      completed_checkbox_value =>
      edit_task_dialog_result task_id result title_input_value
        completed_checkbox_value
  | DeleteButton task_id => confirm_delete_task task_id ;;; pure tt
  | DeleteDialogResult task_id result =>
      confirm_delete_task_result task_id result
  end.

(** The store after the events, handled one after the other. *)
Definition after (es : list Event) (d : Database) : Database :=
  foldl (λ d e, database (handle e (mkPage d [])).2) d es.

(** A handler started on store [d] with no call recorded. *)
Definition on {A} (d : Database) (h : UI A) : Result A * Page :=
  h (mkPage d []).

End TodoApp.

(** ** Vocabulary of the properties of the page *)

(** What [refresh_tasks] puts on the page for store [d]: the two containers
    cleared, the three cards, and then the card for the empty list or one
    item per task of the list. *)
Definition rendered (d : Database) : list TodoApp.UiCall :=
  let all_tasks := load_row <$> map_to_list (tasks d) in
  let listed :=
    load_row <$> select_rows select_Task_order_by_desc_created_at d in
  let total := Z.of_nat (length all_tasks) in
  let done := sum_completed all_tasks in
  [TodoApp.tasks_container_clear; TodoApp.stats_container_clear;
   TodoApp.stats_card "Total Tasks" total;
   TodoApp.stats_card "Completed" done;
   TodoApp.stats_card "Pending" (total - done)%Z]
  ++ match listed with
     | [] => [TodoApp.no_tasks_card]
     | _ => TodoApp.create_task_item <$> listed
     end.

(** A title as the page stores it: not empty, without white space at
    either end, and within the length constraint. *)
Definition clean_title (s : string) : Prop :=
  bool_str s = true ∧ strip s = s ∧ String.length s ≤ max_length.

#[global] Instance clean_title_dec s : Decision (clean_title s).
Proof. unfold clean_title. apply _. Defined.

Definition titles_clean (d : Database) : Prop :=
  map_Forall (λ _ row, clean_title (row_title row)) (tasks d).

#[global] Instance titles_clean_dec d : Decision (titles_clean d).
Proof. unfold titles_clean. apply _. Defined.

(** The value of the input holds no title: it is [None], or nothing is
    left of it when it is stripped. *)
Definition blank (v : option string) : Prop :=
  match v with
  | None => True
  | Some s => strip s = EmptyString
  end.

(* ===================================================================== *)
(** * Part 5. Properties                                                   *)
(* ===================================================================== *)

(** ** Running a session symbolically *)

(** Membership tests on the concrete lists of references of a session. *)
Ltac simpl_mem :=
  repeat first
    [ rewrite decide_True by set_solver
    | rewrite decide_False by set_solver
    | rewrite bool_decide_eq_true_2 by set_solver
    | rewrite bool_decide_eq_false_2 by set_solver ].

(** Unfolding the session monad and the gateway, but not the table. *)
Ltac unfold_session :=
  cbv beta iota zeta delta
    [with_session fresh_session bnd ret raise gets modify log for_each
     new_object getattr setattr attach session_get session_add
     session_delete flush_write flush_delete session_commit session_refresh
     session_exec snapshot set_bind set_objects set_identity set_deleted
     bind objects identity deleted calls].

(** Running a straight-line body on a fresh session. *)
Ltac run_session :=
  repeat (progress (unfold_session; cbn; simpl_mem;
                    rewrite ?lookup_insert_eq, ?lookup_delete_eq)).

(** ** The gateway on lists of rows *)

Lemma for_each_load rows s :
  refs_bounded s →
  for_each (λ kr, r <- new_object (load_row kr) ;; attach r ;;; ret r)
    rows s =
  (Ok (seq (length (objects s)) (length rows)),
   set_identity (identity s ++ seq (length (objects s)) (length rows))
     (set_objects (objects s ++ map load_row rows) s)).
Proof.
  revert s. induction rows as [|[k row] rows IH]; intros s Hs.
  - destruct s; cbn. unfold ret, set_identity, set_objects; cbn.
    by rewrite !app_nil_r.
  - cbn [for_each]. unfold bnd at 1. unfold bnd at 1.
    unfold new_object, attach, bnd, gets, modify, ret at 1 2 3.
    cbn [fst snd].
    rewrite decide_False; last first.
    { cbn. intros Hin. apply Hs in Hin. lia. }
    unfold bnd. rewrite IH; last first.
    { intros r. cbn. rewrite length_app. cbn.
      intros [Hin| ->%list_elem_of_singleton]%elem_of_app; [|lia].
      apply Hs in Hin. lia. }
    unfold ret, set_identity, set_objects. cbn.
    rewrite length_app. cbn.
    replace (length (objects s) + 1) with (S (length (objects s))) by lia.
    by rewrite <- !app_assoc.
Qed.

Lemma for_each_getattr ts pre s :
  objects s = pre ++ ts →
  for_each getattr (seq (length pre) (length ts)) s = (Ok ts, s).
Proof.
  revert pre. induction ts as [|t ts IH]; intros pre Hs; [done|].
  cbn [length seq for_each]. unfold bnd at 1.
  unfold getattr at 1. unfold bnd at 1, gets at 1.
  rewrite Hs, list_lookup_middle by done. unfold ret at 1.
  unfold bnd.
  replace (S (length pre)) with (length (pre ++ [t]))
    by (rewrite length_app; cbn; lia).
  rewrite (IH (pre ++ [t])); [done|]. by rewrite <- app_assoc.
Qed.

(** ** The service operations in closed form *)

Lemma create_task_eq utcnow task_data d :
  create_task utcnow task_data d =
  {| returned := Ok {| id := Some (tasks_id_seq d);
                       title := TaskCreate.title task_data;
                       completed := false; created_at := utcnow |};
     store := {| tasks := <[tasks_id_seq d :=
                   {| row_title := TaskCreate.title task_data;
                      row_completed := false; row_created_at := utcnow |}]>
                   (tasks d);
                 tasks_id_seq := tasks_id_seq d + 1 |};
     issued := [call_add; call_commit; call_refresh] |}.
Proof.
  unfold create_task. run_session. done.
Qed.

Lemma get_task_by_id_eq task_id d :
  get_task_by_id task_id d =
  {| returned := Ok (load task_id <$> tasks d !! task_id);
     store := d; issued := [call_get task_id] |}.
Proof.
  unfold get_task_by_id. unfold_session.
  destruct (tasks d !! task_id) as [row|]; run_session; done.
Qed.

Lemma update_task_eq task_id p d :
  update_task task_id p d =
  match tasks d !! task_id with
  | None => {| returned := Ok None; store := d; issued := [call_get task_id] |}
  | Some row =>
      {| returned := Ok (Some (load task_id (patched p row)));
         store := write_row task_id (patched p row) d;
         issued := call_get task_id :: written |}
  end.
Proof.
  unfold update_task. unfold_session.
  destruct (tasks d !! task_id) as [row|]; [|done].
  destruct p as [[v|] [c|]]; run_session; done.
Qed.

Lemma toggle_task_completion_eq task_id d :
  toggle_task_completion task_id d =
  match tasks d !! task_id with
  | None => {| returned := Ok None; store := d; issued := [call_get task_id] |}
  | Some row =>
      {| returned := Ok (Some (load task_id (toggled row)));
         store := write_row task_id (toggled row) d;
         issued := call_get task_id :: written |}
  end.
Proof.
  unfold toggle_task_completion. unfold_session.
  destruct (tasks d !! task_id) as [row|]; [|done].
  run_session; done.
Qed.

Lemma delete_task_eq task_id d :
  delete_task task_id d =
  match tasks d !! task_id with
  | None =>
      {| returned := Ok false; store := d; issued := [call_get task_id] |}
  | Some row =>
      {| returned := Ok true;
         store := {| tasks := delete task_id (tasks d);
                     tasks_id_seq := tasks_id_seq d |};
         issued := [call_get task_id; call_delete; call_commit] |}
  end.
Proof.
  unfold delete_task. unfold_session.
  destruct (tasks d !! task_id) as [row|] eqn:Hrow; [|done].
  run_session. rewrite delete_insert_eq. done.
Qed.

Lemma session_exec_eq q d :
  session_exec q (fresh_session d) =
  (Ok (seq 0 (length (select_rows q d))), loaded_session q d).
Proof.
  unfold session_exec, log, modify, gets. unfold bnd at 1 2. cbn.
  by rewrite for_each_load by (intros r Hr; cbn in Hr; set_solver).
Qed.

Lemma read_loaded q d :
  for_each getattr (seq 0 (length (select_rows q d))) (loaded_session q d) =
  (Ok (map load_row (select_rows q d)), loaded_session q d).
Proof.
  rewrite <- (length_map load_row (select_rows q d)).
  by apply (for_each_getattr _ []).
Qed.

Lemma get_all_tasks_eq d :
  get_all_tasks d =
  {| returned :=
       Ok (map load_row (select_rows select_Task_order_by_desc_created_at d));
     store := d; issued := [call_exec] |}.
Proof.
  unfold get_all_tasks, with_session, snapshot, bnd.
  by rewrite session_exec_eq, read_loaded.
Qed.

Lemma get_task_statistics_eq d :
  let all_tasks := map load_row (map_to_list (tasks d)) in
  get_task_statistics d =
  {| returned :=
       Ok (statistics (Z.of_nat (length all_tasks)) (sum_completed all_tasks)
             (Z.of_nat (length all_tasks) - sum_completed all_tasks));
     store := d; issued := [call_exec] |}.
Proof.
  intros all_tasks. unfold get_task_statistics, with_session.
  unfold bnd. by rewrite session_exec_eq, read_loaded.
Qed.

(** ** Stored records *)

Lemma stored_row d k t :
  stored d k t ↔ ∃ row, tasks d !! k = Some row ∧ t = load k row.
Proof.
  unfold stored. rewrite get_task_by_id_eq. cbn.
  destruct (tasks d !! k) as [row|]; cbn; split.
  - intros [= <-]. eauto.
  - intros (row' & [= <-] & ->). done.
  - done.
  - intros (? & [=] & _).
Qed.

Lemma write_row_same k row d : tasks d !! k = Some row → write_row k row d = d.
Proof.
  intros Hk. destruct d as [m n]. unfold write_row. cbn in *.
  by rewrite insert_id.
Qed.

(** ** Partial update *)

(** C1. For every stored task and every patch, [update_task] returns and
    stores the record in which each field the patch provides has the
    provided value (the empty string and [false] included) and each field
    the patch leaves unset keeps its stored value; [id] and [created_at]
    are kept.  With both fields unset the returned and stored record is the
    record before the call and the store is the same, although the record
    was written and committed again. *)
Theorem update_task_merges_fields d task_id t (p : TaskUpdate.t) :
  stored d task_id t →
  let o := update_task task_id p d in
  ∃ t',
    returned o = Ok (Some t') ∧
    stored (store o) task_id t' ∧
    title t' = match TaskUpdate.title p with Some v => v | None => title t end ∧
    completed t' =
      match TaskUpdate.completed p with Some v => v | None => completed t end ∧
    id t' = id t ∧
    created_at t' = created_at t ∧
    issued o = [call_get task_id; call_add; call_commit; call_refresh] ∧
    (p = TaskUpdate.mk None None → t' = t ∧ store o = d).
Proof.
  intros (row & Hrow & ->)%stored_row o. subst o.
  rewrite update_task_eq, Hrow. cbn.
  exists (load task_id (patched p row)). split_and!; try done.
  - apply stored_row. exists (patched p row). cbn.
    rewrite lookup_insert_eq. split; reflexivity.
  - intros ->. replace (patched (TaskUpdate.mk None None) row) with row
      by by destruct row.
    by rewrite write_row_same.
Qed.

Lemma update_task_merges_fields_witness :
  stored one_task 1
    {| id := Some 1%Z; title := "Buy milk"; completed := false;
       created_at := 3%Z |} ∧
  ∃ t',
    returned (update_task 1 (TaskUpdate.mk (Some "") None) one_task)
      = Ok (Some t') ∧
    title t' = "" ∧ completed t' = false.
Proof.
  assert (stored one_task 1
            {| id := Some 1%Z; title := "Buy milk"; completed := false;
               created_at := 3%Z |}) as Hst by (vm_compute; reflexivity).
  split; [exact Hst|].
  destruct (update_task_merges_fields one_task 1 _
              (TaskUpdate.mk (Some "") None) Hst)
    as (t' & Hret & _ & Ht & Hc & _).
  exists t'. split_and!; assumption.
Defined.

(** ** Statistics *)

Lemma foldl_add_ones {A} (l : list A) (acc : Z) :
  foldl Z.add acc (map (λ _, 1%Z) l) = (acc + Z.of_nat (length l))%Z.
Proof.
  revert acc. induction l as [|x l IH]; intros acc; cbn [map foldl length].
  - lia.
  - rewrite IH. lia.
Qed.

Lemma sum_completed_length all_tasks :
  sum_completed all_tasks =
  Z.of_nat (length (filter (λ task, completed task = true) all_tasks)).
Proof. unfold sum_completed. rewrite foldl_add_ones. lia. Qed.

Lemma length_loaded (m : gmap Z Row) :
  length (map load_row (map_to_list m)) = size m.
Proof. by rewrite length_map, length_map_to_list. Qed.

Lemma length_loaded_completed (m : gmap Z Row) :
  length (filter (λ task, completed task = true) (map load_row (map_to_list m)))
  = size (completed_rows m).
Proof.
  unfold completed_rows.
  induction m as [|k row m Hk Hfirst IH] using map_first_key_ind.
  - by rewrite map_to_list_empty, map_filter_empty, map_size_empty.
  - rewrite map_to_list_insert_first_key by done.
    cbn [map]. rewrite filter_cons.
    destruct (decide (completed (load_row (k, row)) = true)) as [Hc|Hc];
      cbn in Hc.
    + rewrite map_filter_insert_True by done.
      rewrite map_size_insert_None
        by (apply map_lookup_filter_None; by left).
      cbn [length]. by rewrite IH.
    + rewrite map_filter_insert_not' by naive_solver. done.
Qed.

Lemma completed_rows_size (m : gmap Z Row) : size (completed_rows m) ≤ size m.
Proof.
  rewrite <- length_loaded_completed, <- length_loaded. apply length_filter.
Qed.

(** C2. For every store, [get_task_statistics] returns the dictionary
    whose ["total"] is the number of rows of the table, whose ["completed"]
    is the number of rows with a true [completed], and whose ["pending"] is
    their difference; so total = completed + pending, none is negative, and
    the store is as before.  On an empty table all three are 0. *)
Theorem get_task_statistics_counts d :
  ∃ r total completed pending,
    returned (get_task_statistics d) = Ok r ∧
    store (get_task_statistics d) = d ∧
    r !! "total" = Some total ∧
    r !! "completed" = Some completed ∧
    r !! "pending" = Some pending ∧
    total = Z.of_nat (size (tasks d)) ∧
    completed = Z.of_nat (size (completed_rows (tasks d))) ∧
    pending = (total - completed)%Z ∧
    total = (completed + pending)%Z ∧
    (0 ≤ completed)%Z ∧ (0 ≤ pending)%Z ∧
    (∀ n, returned (get_task_statistics (empty_store n))
          = Ok (statistics 0 0 0)).
Proof.
  rewrite get_task_statistics_eq. cbn.
  rewrite sum_completed_length, length_loaded_completed, length_loaded.
  pose proof (completed_rows_size (tasks d)).
  eexists _, _, _, _. split_and!; try done; lia.
Qed.

(** ** Creation *)

(** C4. For every title within the length constraint, the empty string
    included, [TaskCreate] accepts the title, and [create_task] followed by
    [get_task_by_id] on the returned id finds the returned record: it has
    that title, [completed = false], an [id] that is not [None], and the
    clock reading of the call as [created_at]. *)
Theorem create_then_get d utcnow (s : string) :
  String.length s ≤ max_length →
  ∃ task_data t k,
    TaskCreate.init s = Ok task_data ∧
    returned (create_task utcnow task_data d) = Ok t ∧
    id t = Some k ∧
    title t = s ∧
    completed t = false ∧
    created_at t = utcnow ∧
    returned (get_task_by_id k (store (create_task utcnow task_data d)))
      = Ok (Some t).
Proof.
  intros Hlen. exists (TaskCreate.mk s). eexists _, (tasks_id_seq d).
  split.
  { unfold TaskCreate.init. by rewrite decide_True. }
  rewrite create_task_eq. cbn. split_and!; try done.
  rewrite get_task_by_id_eq. cbn. by rewrite lookup_insert_eq.
Qed.

Lemma create_then_get_witness :
  String.length "" ≤ max_length ∧
  ∃ task_data t k,
    TaskCreate.init "" = Ok task_data ∧
    returned (create_task 42%Z task_data reset_db) = Ok t ∧
    id t = Some k ∧ title t = "" ∧ completed t = false ∧
    created_at t = 42%Z ∧
    returned (get_task_by_id k (store (create_task 42%Z task_data reset_db)))
      = Ok (Some t).
Proof.
  assert (String.length "" ≤ max_length) as Hlen by (vm_compute; lia).
  split; [exact Hlen|].
  exact (create_then_get reset_db 42%Z "" Hlen).
Defined.

(** ** Toggling *)

Lemma toggled_toggled row : toggled (toggled row) = row.
Proof. destruct row as [s c ts]. unfold toggled. cbn. by rewrite negb_involutive. Qed.

(** C5. For every stored task, [toggle_task_completion] applied twice
    returns first the record with [completed] negated and then the
    original record; afterwards the stored record and the whole store are
    as before the two calls. *)
Theorem toggle_twice d task_id t :
  stored d task_id t →
  let o1 := toggle_task_completion task_id d in
  let o2 := toggle_task_completion task_id (store o1) in
  ∃ t1,
    returned o1 = Ok (Some t1) ∧
    completed t1 = negb (completed t) ∧
    returned o2 = Ok (Some t) ∧
    stored (store o2) task_id t ∧
    store o2 = d.
Proof.
  intros (row & Hrow & ->)%stored_row o1 o2. subst o1 o2.
  rewrite (toggle_task_completion_eq _ d), Hrow. cbn.
  rewrite toggle_task_completion_eq. cbn. rewrite lookup_insert_eq. cbn.
  rewrite toggled_toggled.
  assert (write_row task_id row (write_row task_id (toggled row) d) = d)
    as Hd.
  { unfold write_row. cbn. rewrite insert_insert_eq.
    by apply (write_row_same task_id row d). }
  rewrite Hd. eexists. split_and!; try done.
  apply stored_row. eauto.
Qed.

Lemma toggle_twice_witness :
  stored one_task 1
    {| id := Some 1%Z; title := "Buy milk"; completed := false;
       created_at := 3%Z |} ∧
  store (toggle_task_completion 1
           (store (toggle_task_completion 1 one_task))) = one_task.
Proof.
  assert (stored one_task 1
            {| id := Some 1%Z; title := "Buy milk"; completed := false;
               created_at := 3%Z |}) as Hst by (vm_compute; reflexivity).
  split; [exact Hst|].
  destruct (toggle_twice one_task 1 _ Hst) as (t1 & _ & _ & _ & _ & Hd).
  exact Hd.
Defined.

(** C6. For every id, found or not, [toggle_task_completion] and
    [update_task] with the patch that provides only [completed], set to the
    negation of the current value, return the same result, leave the same
    store and make the same gateway calls. *)
Theorem toggle_is_update c task_id d :
  toggle_task_completion task_id d = toggle_via_update c task_id d.
Proof.
  unfold toggle_via_update, current_completed.
  rewrite toggle_task_completion_eq, update_task_eq, get_task_by_id_eq.
  destruct (tasks d !! task_id) as [row|]; done.
Qed.

(** ** Absent ids and deletion *)

(** C7. For every store and id, the four operations return values and
    raise nothing, and what they return follows the table.  When the table
    has a row under the id, [get_task_by_id] returns its record and
    [delete_task] returns [true] and removes the row, so that the table
    has no row under the id and a following [get_task_by_id] returns
    [None].  When the table has no row under the id, [delete_task] returns
    [false], and [get_task_by_id], [update_task] (with any patch) and
    [toggle_task_completion] return [None]. *)
Theorem delete_and_not_found d task_id :
  match tasks d !! task_id with
  | Some row =>
      returned (get_task_by_id task_id d) = Ok (Some (load task_id row)) ∧
      returned (delete_task task_id d) = Ok true ∧
      tasks (store (delete_task task_id d)) !! task_id = None ∧
      returned (get_task_by_id task_id (store (delete_task task_id d)))
        = Ok None ∧
      (∀ p, ∃ t', returned (update_task task_id p d) = Ok (Some t')) ∧
      (∃ t', returned (toggle_task_completion task_id d) = Ok (Some t'))
  | None =>
      returned (get_task_by_id task_id d) = Ok None ∧
      returned (delete_task task_id d) = Ok false ∧
      (∀ p, returned (update_task task_id p d) = Ok None) ∧
      returned (toggle_task_completion task_id d) = Ok None
  end.
Proof.
  rewrite get_task_by_id_eq, delete_task_eq, toggle_task_completion_eq.
  destruct (tasks d !! task_id) as [row|] eqn:Hrow; cbn.
  - split_and!; try done.
    + by rewrite lookup_delete_eq.
    + rewrite get_task_by_id_eq. cbn. by rewrite lookup_delete_eq.
    + intros p. rewrite update_task_eq, Hrow. eauto.
    + eauto.
  - split_and!; try done. intros p. by rewrite update_task_eq, Hrow.
Qed.

Lemma delete_and_not_found_witness :
  (tasks one_task !! 1%Z
     = Some {| row_title := "Buy milk"; row_completed := false;
               row_created_at := 3%Z |} ∧
   returned (delete_task 1 one_task) = Ok true ∧
   returned (get_task_by_id 1 (store (delete_task 1 one_task))) = Ok None) ∧
  (tasks one_task !! 999%Z = None ∧
   returned (get_task_by_id 999 one_task) = Ok None ∧
   returned (delete_task 999 one_task) = Ok false ∧
   returned (toggle_task_completion 999 one_task) = Ok None).
Proof.
  assert (tasks one_task !! 1%Z
          = Some {| row_title := "Buy milk"; row_completed := false;
                    row_created_at := 3%Z |}) as Hin
    by (vm_compute; reflexivity).
  assert (tasks one_task !! 999%Z = None) as Hout
    by (vm_compute; reflexivity).
  pose proof (delete_and_not_found one_task 1) as H1.
  pose proof (delete_and_not_found one_task 999) as H999.
  rewrite Hin in H1. rewrite Hout in H999.
  destruct H1 as (_ & Hdel & _ & Hgone & _).
  destruct H999 as (Hget & Hdel' & _ & Htog).
  split.
  - split; [exact Hin|]. split; [exact Hdel | exact Hgone].
  - split; [exact Hout|]. split; [exact Hget|].
    split; [exact Hdel' | exact Htog].
Defined.

(** C9. When the id matches no record, [update_task],
    [toggle_task_completion] and [delete_task] return with the store
    exactly as it was, having made the lookup and no other gateway call:
    no add, no delete, no commit, no refresh. *)
Theorem not_found_leaves_store d task_id p :
  returned (get_task_by_id task_id d) = Ok None →
  store (update_task task_id p d) = d ∧
  issued (update_task task_id p d) = [call_get task_id] ∧
  store (toggle_task_completion task_id d) = d ∧
  issued (toggle_task_completion task_id d) = [call_get task_id] ∧
  store (delete_task task_id d) = d ∧
  issued (delete_task task_id d) = [call_get task_id].
Proof.
  rewrite get_task_by_id_eq, update_task_eq, toggle_task_completion_eq,
    delete_task_eq. cbn.
  destruct (tasks d !! task_id) as [row|]; [done|]. by intros _.
Qed.

Lemma not_found_leaves_store_witness :
  returned (get_task_by_id 999 one_task) = Ok None ∧
  store (update_task 999 (TaskUpdate.mk (Some "Should Not Work") None)
           one_task) = one_task ∧
  store (toggle_task_completion 999 one_task) = one_task ∧
  store (delete_task 999 one_task) = one_task.
Proof.
  assert (returned (get_task_by_id 999 one_task) = Ok None) as Hnone
    by (vm_compute; reflexivity).
  split; [exact Hnone|].
  destruct (not_found_leaves_store one_task 999
              (TaskUpdate.mk (Some "Should Not Work") None) Hnone)
    as (Hu & _ & Ht & _ & Hd & _).
  split_and!; assumption.
Defined.

(** C10. A patch built with [title=None] is the patch built without a
    title, and likewise for [completed]; for every stored task, updating
    with it leaves the title as stored, while updating with [title=""]
    stores and returns the empty title.  After any update the title is the
    stored one or the string the patch provides, and [completed] the stored
    one or the flag the patch provides. *)
Theorem update_none_is_omitted d task_id t (c : kwarg (option bool)) :
  stored d task_id t →
  TaskUpdate.init (Passed None) c = TaskUpdate.init Omitted c ∧
  (∀ v, TaskUpdate.init v (Passed None) = TaskUpdate.init v Omitted) ∧
  (∃ p t', TaskUpdate.init (Passed None) c = Ok p ∧
           returned (update_task task_id p d) = Ok (Some t') ∧
           title t' = title t) ∧
  (∃ p t', TaskUpdate.init (Passed (Some "")) c = Ok p ∧
           returned (update_task task_id p d) = Ok (Some t') ∧
           title t' = "" ∧
           stored (store (update_task task_id p d)) task_id t') ∧
  (∀ p, ∃ t', returned (update_task task_id p d) = Ok (Some t') ∧
              (title t' = title t ∨ TaskUpdate.title p = Some (title t')) ∧
              (completed t' = completed t ∨
               TaskUpdate.completed p = Some (completed t'))).
Proof.
  intros (row & Hrow & ->)%stored_row. split_and!; try done.
  - eexists _, _. split; [done|]. rewrite update_task_eq, Hrow. done.
  - eexists _, _. split; [done|]. rewrite update_task_eq, Hrow. cbn.
    split_and!; try done. apply stored_row. eexists. cbn.
    by rewrite lookup_insert_eq.
  - intros p. rewrite update_task_eq, Hrow. eexists. split; [done|].
    cbn. destruct (TaskUpdate.title p), (TaskUpdate.completed p); auto.
Qed.

Lemma update_none_is_omitted_witness :
  stored one_task 1
    {| id := Some 1%Z; title := "Buy milk"; completed := false;
       created_at := 3%Z |} ∧
  ∃ p t', TaskUpdate.init (Passed None) (Passed None) = Ok p ∧
          returned (update_task 1 p one_task) = Ok (Some t') ∧
          title t' = "Buy milk".
Proof.
  assert (stored one_task 1
            {| id := Some 1%Z; title := "Buy milk"; completed := false;
               created_at := 3%Z |}) as Hst by (vm_compute; reflexivity).
  split; [exact Hst|].
  destruct (update_none_is_omitted one_task 1 _ (Passed None) Hst)
    as (_ & _ & Hnone & _).
  exact Hnone.
Defined.

(** ** Sequences of service calls *)

Lemma fresh_ids_reset_db : fresh_ids reset_db.
Proof. apply map_Forall_empty. Qed.

Lemma fresh_ids_write_row k row d :
  is_Some (tasks d !! k) → fresh_ids d → fresh_ids (write_row k row d).
Proof.
  intros [row0 Hk] Hd k' row'. unfold write_row. cbn.
  destruct (decide (k = k')) as [<-|Hne].
  - intros _. by apply (Hd k row0).
  - rewrite lookup_insert_ne by done. apply Hd.
Qed.

Lemma fresh_ids_call c d : fresh_ids d → fresh_ids (call_store c d).
Proof.
  intros Hd. destruct c as [utcnow task_data| |k|k p|k|k|]; cbn.
  - rewrite create_task_eq. cbn. intros k row. cbn.
    destruct (decide (tasks_id_seq d = k)) as [<-|Hne]; [lia|].
    rewrite lookup_insert_ne by done. intros Hk%Hd. cbn in Hk. lia.
  - by rewrite get_all_tasks_eq.
  - by rewrite get_task_by_id_eq.
  - rewrite update_task_eq. destruct (tasks d !! k) eqn:Hk; [|done].
    by apply fresh_ids_write_row.
  - rewrite toggle_task_completion_eq.
    destruct (tasks d !! k) eqn:Hk; [|done]. by apply fresh_ids_write_row.
  - rewrite delete_task_eq. destruct (tasks d !! k) eqn:Hk; [|done].
    cbn. intros k' row'. cbn. intros [_ Hk']%lookup_delete_Some.
    by apply (Hd k' row').
  - by rewrite get_task_statistics_eq.
Qed.

Lemma fresh_ids_run cs d : fresh_ids d → fresh_ids (run cs d).
Proof.
  revert d. induction cs as [|c cs IH]; intros d Hd; [done|].
  cbn. by apply IH, fresh_ids_call.
Qed.

(** What one call does to the row of a primary key that is in use: it
    removes the row (a deletion of that key) or leaves a row with the same
    [created_at]. *)
Lemma call_keeps_created_at c d k row :
  fresh_ids d →
  tasks d !! k = Some row →
  match tasks (call_store c d) !! k with
  | Some row' => row_created_at row' = row_created_at row
  | None => c = DeleteTask k
  end.
Proof.
  intros Hd Hk. destruct c as [utcnow task_data| |k'|k' p|k'|k'|]; cbn.
  - rewrite create_task_eq. cbn.
    pose proof (Hd k row Hk) as Hlt. cbn in Hlt.
    rewrite lookup_insert_ne by lia. by rewrite Hk.
  - rewrite get_all_tasks_eq. cbn. by rewrite Hk.
  - rewrite get_task_by_id_eq. cbn. by rewrite Hk.
  - rewrite update_task_eq.
    destruct (tasks d !! k') as [row0|] eqn:Hk'; [|cbn; by rewrite Hk]. cbn.
    destruct (decide (k' = k)) as [->|Hne].
    + rewrite lookup_insert_eq. cbn. congruence.
    + by rewrite lookup_insert_ne, Hk.
  - rewrite toggle_task_completion_eq.
    destruct (tasks d !! k') as [row0|] eqn:Hk'; [|cbn; by rewrite Hk]. cbn.
    destruct (decide (k' = k)) as [->|Hne].
    + rewrite lookup_insert_eq. cbn. congruence.
    + by rewrite lookup_insert_ne, Hk.
  - rewrite delete_task_eq.
    destruct (tasks d !! k') as [row0|] eqn:Hk'; [|cbn; by rewrite Hk]. cbn.
    destruct (decide (k' = k)) as [->|Hne].
    + by rewrite lookup_delete_eq.
    + by rewrite lookup_delete_ne, Hk.
  - rewrite get_task_statistics_eq. cbn. by rewrite Hk.
Qed.

Lemma call_seq_mono c d : (tasks_id_seq d ≤ tasks_id_seq (call_store c d))%Z.
Proof.
  destruct c as [utcnow task_data| |k|k p|k|k|]; cbn.
  - rewrite create_task_eq. cbn. lia.
  - by rewrite get_all_tasks_eq.
  - by rewrite get_task_by_id_eq.
  - rewrite update_task_eq. by destruct (tasks d !! k).
  - rewrite toggle_task_completion_eq. by destruct (tasks d !! k).
  - rewrite delete_task_eq. by destruct (tasks d !! k).
  - by rewrite get_task_statistics_eq.
Qed.

(** A primary key behind the sequence that is not in use is never in use
    again. *)
Lemma call_keeps_absent c d k :
  (k < tasks_id_seq d)%Z →
  tasks d !! k = None → tasks (call_store c d) !! k = None.
Proof.
  intros Hseq Hk. destruct c as [utcnow task_data| |k'|k' p|k'|k'|]; cbn.
  - rewrite create_task_eq. cbn. rewrite lookup_insert_ne by lia. done.
  - by rewrite get_all_tasks_eq.
  - by rewrite get_task_by_id_eq.
  - rewrite update_task_eq.
    destruct (tasks d !! k') as [row0|] eqn:Hk'; [|done]. cbn.
    rewrite lookup_insert_ne; [done|]. congruence.
  - rewrite toggle_task_completion_eq.
    destruct (tasks d !! k') as [row0|] eqn:Hk'; [|done]. cbn.
    rewrite lookup_insert_ne; [done|]. congruence.
  - rewrite delete_task_eq.
    destruct (tasks d !! k') as [row0|] eqn:Hk'; [|done]. cbn.
    by apply lookup_delete_None; right.
  - by rewrite get_task_statistics_eq.
Qed.

Lemma run_keeps_absent cs d k :
  (k < tasks_id_seq d)%Z →
  tasks d !! k = None → tasks (run cs d) !! k = None.
Proof.
  revert d. induction cs as [|c cs IH]; intros d Hseq Hk; [done|].
  cbn. apply IH.
  - pose proof (call_seq_mono c d). lia.
  - by apply call_keeps_absent.
Qed.

Lemma run_keeps_created_at cs d k row :
  fresh_ids d →
  tasks d !! k = Some row →
  match tasks (run cs d) !! k with
  | Some row' => row_created_at row' = row_created_at row
  | None => DeleteTask k ∈ cs
  end.
Proof.
  revert d row. induction cs as [|c cs IH]; intros d row Hd Hk.
  { cbn. by rewrite Hk. }
  cbn.
  pose proof (call_keeps_created_at c d k row Hd Hk) as Hc.
  destruct (tasks (call_store c d) !! k) as [row1|] eqn:Hk1.
  - specialize (IH _ row1 (fresh_ids_call c d Hd) Hk1). unfold run in IH.
    destruct (tasks (foldl _ _ cs) !! k) as [row2|].
    + congruence.
    + by apply list_elem_of_further.
  - subst c. fold (run cs (call_store (DeleteTask k) d)).
    rewrite run_keeps_absent; [apply list_elem_of_here| |done].
    pose proof (call_seq_mono (DeleteTask k) d).
    apply Hd in Hk. cbn in Hk. lia.
Qed.

(** ** Immutable fields *)

(** C8. In a store whose sequence is ahead of its primary keys, as in every
    store the service produces from [reset_db], take any stored task and
    any further service calls.  Afterwards a lookup of its id returns a
    value; if that is a record, its [created_at] and its [id] are those of
    the task before the calls; and it is a record unless one of the calls
    deleted that id. *)
Theorem created_at_and_id_stable cs d task_id t :
  fresh_ids d →
  stored d task_id t →
  ∃ r,
    returned (get_task_by_id task_id (run cs d)) = Ok r ∧
    (∀ t', r = Some t' → created_at t' = created_at t ∧ id t' = id t) ∧
    (DeleteTask task_id ∉ cs → is_Some r) ∧
    (∀ cs0, fresh_ids (run cs0 reset_db)).
Proof.
  intros Hd (row & Hrow & ->)%stored_row.
  rewrite get_task_by_id_eq. cbn. eexists. split; [done|].
  pose proof (run_keeps_created_at cs d task_id row Hd Hrow) as Hrun.
  destruct (tasks (run cs d) !! task_id) as [row'|]; cbn; split_and!.
  - intros t' [= <-]. cbn. by split.
  - eauto.
  - intros cs0. apply fresh_ids_run, fresh_ids_reset_db.
  - done.
  - intros Hnot. by destruct Hnot.
  - intros cs0. apply fresh_ids_run, fresh_ids_reset_db.
Qed.

Lemma created_at_and_id_stable_witness :
  fresh_ids one_task ∧
  stored one_task 1
    {| id := Some 1%Z; title := "Buy milk"; completed := false;
       created_at := 3%Z |} ∧
  ∃ r,
    returned
      (get_task_by_id 1
         (run [UpdateTask 1 (TaskUpdate.mk (Some "Buy oat milk") (Some true));
               ToggleTaskCompletion 1;
               CreateTask 9%Z (TaskCreate.mk "Call home")] one_task)) = Ok r ∧
    ∀ t', r = Some t' → created_at t' = 3%Z ∧ id t' = Some 1%Z.
Proof.
  assert (fresh_ids one_task) as Hfresh
    by (apply (bool_decide_unpack (fresh_ids one_task)); vm_compute; exact I).
  assert (stored one_task 1
            {| id := Some 1%Z; title := "Buy milk"; completed := false;
               created_at := 3%Z |}) as Hst by (vm_compute; reflexivity).
  split; [exact Hfresh|]. split; [exact Hst|].
  destruct (created_at_and_id_stable
              [UpdateTask 1 (TaskUpdate.mk (Some "Buy oat milk") (Some true));
               ToggleTaskCompletion 1;
               CreateTask 9%Z (TaskCreate.mk "Call home")]
              one_task 1 _ Hfresh Hst) as (r & Hr & Hsame & _).
  exists r. split; [exact Hr | exact Hsame].
Defined.

(** ** Listing *)

Lemma create_tasks_eq reqs d :
  create_tasks reqs d =
  ((λ kr, Ok (load_row kr)) <$> expected (tasks_id_seq d) reqs,
   {| tasks := insert_rows (tasks d) (expected (tasks_id_seq d) reqs);
      tasks_id_seq := tasks_id_seq d + Z.of_nat (length reqs) |}).
Proof.
  revert d. induction reqs as [|[utcnow task_data] reqs IH]; intros d.
  - cbn. destruct d. cbn. by rewrite Z.add_0_r.
  - cbn [create_tasks]. rewrite IH, create_task_eq. cbn -[Z.of_nat].
    f_equal. f_equal. lia.
Qed.

Lemma map_to_list_insert_rows n reqs (m : gmap Z Row) :
  (∀ k, (n ≤ k)%Z → m !! k = None) →
  map_to_list (insert_rows m (expected n reqs))
  ≡ₚ expected n reqs ++ map_to_list m.
Proof.
  revert n m. induction reqs as [|[utcnow task_data] reqs IH]; intros n m Hm.
  - done.
  - cbn. rewrite IH; last first.
    { intros k Hk. rewrite lookup_insert_ne by lia. apply Hm. lia. }
    rewrite map_to_list_insert by (apply Hm; lia).
    by rewrite Permutation_middle.
Qed.

Lemma expected_created_at n reqs :
  (λ kr, row_created_at kr.2) <$> expected n reqs = reqs.*1.
Proof.
  revert n. induction reqs as [|[utcnow task_data] reqs IH]; intros n; [done|].
  cbn. by rewrite IH.
Qed.

Lemma expected_earlier n reqs :
  clock_increasing reqs → StronglySorted earlier (expected n reqs).
Proof.
  unfold clock_increasing. rewrite <- (expected_created_at n).
  induction (expected n reqs) as [|kr l IH]; [constructor|].
  cbn. intros [Hl Hkr]%StronglySorted_inv. constructor; [by apply IH|].
  rewrite Forall_fmap in Hkr. done.
Qed.

Lemma earlier_inj l x y :
  StronglySorted earlier l → x ∈ l → y ∈ l →
  row_created_at x.2 = row_created_at y.2 → x = y.
Proof.
  induction 1 as [|z l Hl IH Hz]; [by intros ?%elem_of_nil|].
  rewrite Forall_forall in Hz. unfold earlier in Hz.
  intros [->|Hx]%elem_of_cons [->|Hy]%elem_of_cons Heq; [done| | |by apply IH].
  - specialize (Hz _ Hy). lia.
  - specialize (Hz _ Hx). lia.
Qed.

#[global] Instance desc_created_at_trans : Transitive desc_created_at.
Proof. unfold desc_created_at. intros a b c ??. lia. Qed.

#[global] Instance desc_created_at_total : Total desc_created_at.
Proof. unfold desc_created_at. intros a b. lia. Qed.

Lemma expected_desc n reqs :
  clock_increasing reqs →
  Sorted desc_created_at (reverse (expected n reqs)).
Proof.
  intros Hinc%(expected_earlier n)%StronglySorted_Sorted%Sorted_reverse.
  rewrite <- (list_fmap_id (reverse _)).
  apply (Sorted_fmap _ (flip earlier)); [|done].
  unfold earlier, desc_created_at, flip. cbn. intros ???. lia.
Qed.

(** With increasing clock readings the ordered selection is the reverse of
    the order of creation. *)
Lemma select_created n reqs :
  clock_increasing reqs →
  select_rows select_Task_order_by_desc_created_at
    {| tasks := insert_rows ∅ (expected n reqs);
       tasks_id_seq := n + Z.of_nat (length reqs) |}
  = reverse (expected n reqs).
Proof.
  intros Hinc. cbn.
  assert (map_to_list (insert_rows ∅ (expected n reqs)) ≡ₚ expected n reqs)
    as Hperm.
  { rewrite map_to_list_insert_rows by (intros; apply lookup_empty).
    by rewrite map_to_list_empty, app_nil_r. }
  apply (Sorted_unique_strong desc_created_at).
  - intros x1 x2 Hx1 Hx2 H12 H21.
    apply (earlier_inj (expected n reqs)).
    + by apply expected_earlier.
    + by rewrite merge_sort_Permutation, Hperm in Hx1.
    + by rewrite elem_of_reverse in Hx2.
    + unfold desc_created_at in *. lia.
  - apply Sorted_merge_sort, _.
  - by apply expected_desc.
  - by rewrite merge_sort_Permutation, Hperm, reverse_Permutation.
Qed.

(** For every store, the list is sorted by [created_at], descending, and
    holds exactly the stored records. *)
Lemma get_all_tasks_sorted d :
  ∃ l, returned (get_all_tasks d) = Ok l ∧
       store (get_all_tasks d) = d ∧
       Sorted (λ a b, (created_at b ≤ created_at a)%Z) l ∧
       l ≡ₚ load_row <$> map_to_list (tasks d).
Proof.
  rewrite get_all_tasks_eq. cbn. eexists. split_and!; try done.
  - apply (Sorted_fmap _ desc_created_at); [done|].
    apply Sorted_merge_sort, _.
  - by rewrite merge_sort_Permutation.
Qed.

(** C3, as amended.  When the clock readings of the creations are strictly
    increasing, creating N tasks in sequence in an empty store and then
    listing returns exactly the N records that the creations returned, the
    most recently created first; their titles are the requested titles in
    reverse.  Besides, listing an empty store returns the empty list, and
    listing any store returns, without error and without changing the
    store, the stored records sorted by [created_at], descending. *)
Theorem get_all_tasks_newest_first n reqs :
  clock_increasing reqs →
  newest_first n reqs ∧
  (∃ l, returned (get_all_tasks (create_tasks reqs (empty_store n)).2) = Ok l ∧
        length l = length reqs ∧
        title <$> l = reverse ((λ req, TaskCreate.title req.2) <$> reqs)) ∧
  returned (get_all_tasks (empty_store n)) = Ok [] ∧
  (∀ d, ∃ l, returned (get_all_tasks d) = Ok l ∧
             store (get_all_tasks d) = d ∧
             Sorted (λ a b, (created_at b ≤ created_at a)%Z) l ∧
             l ≡ₚ load_row <$> map_to_list (tasks d)).
Proof.
  intros Hinc. unfold newest_first. rewrite create_tasks_eq. cbn -[Z.of_nat].
  rewrite get_all_tasks_eq. cbn [returned].
  rewrite (select_created n reqs Hinc). split_and!.
  - exists (load_row <$> expected n reqs). split.
    + by rewrite <- list_fmap_compose.
    + by rewrite fmap_reverse.
  - eexists. split; [done|]. split.
    + rewrite length_map, length_reverse. clear Hinc. revert n.
      induction reqs as [|[??] reqs IH]; intros n; [done|].
      cbn. f_equal. apply IH.
    + rewrite <- fmap_reverse. change (list_fmap ?A ?B ?f) with (fmap f).
      rewrite <- list_fmap_compose, !fmap_reverse. f_equal.
      clear Hinc. revert n.
      induction reqs as [|[??] reqs IH]; intros n; [done|].
      cbn. f_equal. apply IH.
  - by rewrite get_all_tasks_eq.
  - apply get_all_tasks_sorted.
Qed.

Lemma get_all_tasks_newest_first_witness :
  clock_increasing [(1%Z, TaskCreate.mk "First"); (2%Z, TaskCreate.mk "Second");
                    (3%Z, TaskCreate.mk "Third")] ∧
  ∃ l, returned
         (get_all_tasks
            (create_tasks
               [(1%Z, TaskCreate.mk "First"); (2%Z, TaskCreate.mk "Second");
                (3%Z, TaskCreate.mk "Third")] reset_db).2) = Ok l ∧
       title <$> l = ["Third"; "Second"; "First"].
Proof.
  assert (clock_increasing
            [(1%Z, TaskCreate.mk "First"); (2%Z, TaskCreate.mk "Second");
             (3%Z, TaskCreate.mk "Third")]) as Hinc.
  { unfold clock_increasing. cbn. repeat constructor; lia. }
  split; [exact Hinc|].
  destruct (get_all_tasks_newest_first 1 _ Hinc)
    as (_ & (l & Hl & _ & Ht) & _).
  exists l. split; [exact Hl | exact Ht].
Defined.

(** C3 as stated fails where the clock does not advance between creations:
    in the store after [reset_db], "First" created at reading 2 and then
    "Second" at reading 1 are listed as "First", "Second", the most
    recently created task last. *)
Lemma get_all_tasks_follows_clock :
  ¬ newest_first 1
      [(2%Z, TaskCreate.mk "First"); (1%Z, TaskCreate.mk "Second")]
  ∧ ∃ l,
      returned
        (get_all_tasks
           (create_tasks [(2%Z, TaskCreate.mk "First");
                          (1%Z, TaskCreate.mk "Second")] reset_db).2) = Ok l ∧
      title <$> l = ["First"; "Second"].
Proof.
  split.
  - unfold newest_first. vm_compute create_tasks.
    intros (ts & Hrs & Hl). rewrite get_all_tasks_eq in Hl.
    destruct ts as [|t1 [|t2 [|t3 ts]]]; try discriminate Hrs.
    injection Hrs as <- <-. vm_compute in Hl. discriminate Hl.
  - eexists. split; [vm_compute; reflexivity|]. reflexivity.
Qed.

(* ===================================================================== *)
(** * Part 6. Further properties of the service                            *)
(* ===================================================================== *)

(** ** Updates *)

Lemma write_row_lookup_ne k k' row d :
  k' ≠ k → tasks (write_row k row d) !! k' = tasks d !! k'.
Proof. intros Hne. unfold write_row. cbn. by rewrite lookup_insert_ne. Qed.

Lemma write_row_size k row d :
  is_Some (tasks d !! k) → size (tasks (write_row k row d)) = size (tasks d).
Proof. intros Hk. unfold write_row. cbn. by rewrite map_size_insert_Some. Qed.

(** X1. [update_task] and [toggle_task_completion] on one id leave every
    other id as it was: a lookup of another id returns what it returned
    before, and the number of stored records is the same. *)
Theorem update_and_toggle_frame d task_id p other :
  other ≠ task_id →
  returned (get_task_by_id other (store (update_task task_id p d)))
    = returned (get_task_by_id other d) ∧
  returned (get_task_by_id other (store (toggle_task_completion task_id d)))
    = returned (get_task_by_id other d) ∧
  size (tasks (store (update_task task_id p d))) = size (tasks d) ∧
  size (tasks (store (toggle_task_completion task_id d))) = size (tasks d).
Proof.
  intros Hne. rewrite !get_task_by_id_eq, update_task_eq,
    toggle_task_completion_eq. cbn.
  destruct (tasks d !! task_id) as [row|] eqn:Hrow; cbn; [|done].
  rewrite !lookup_insert_ne by done.
  rewrite !map_size_insert_Some by eauto. done.
Qed.

Lemma update_and_toggle_frame_witness :
  (1 ≠ 2)%Z ∧
  returned (get_task_by_id 1
    (store (update_task 2 (TaskUpdate.mk (Some "x") None)
       (store (create_task 4%Z (TaskCreate.mk "Call home") one_task)))))
  = returned (get_task_by_id 1
       (store (create_task 4%Z (TaskCreate.mk "Call home") one_task))).
Proof.
  assert (1 ≠ 2)%Z as Hne by lia.
  split; [exact Hne|].
  exact (proj1 (update_and_toggle_frame
                  (store (create_task 4%Z (TaskCreate.mk "Call home") one_task))
                  2 (TaskUpdate.mk (Some "x") None) 1 Hne)).
Defined.

Lemma patched_later p1 p2 row :
  patched p2 (patched p1 row) = patched (later_patch p1 p2) row.
Proof. destruct p1 as [[?|] [?|]], p2 as [[?|] [?|]]; done. Qed.

Lemma write_row_write_row k row1 row2 d :
  write_row k row2 (write_row k row1 d) = write_row k row2 d.
Proof. unfold write_row. cbn. by rewrite insert_insert_eq. Qed.

(** X2. Two updates of one id in a row amount to one update with the
    patch in which each field is the later patch's when it provides one and
    the earlier patch's otherwise: the second call returns what the single
    update returns and leaves the same store. *)
Theorem update_task_twice_is_later_patch d task_id p1 p2 :
  let o12 := update_task task_id p2 (store (update_task task_id p1 d)) in
  let o := update_task task_id (later_patch p1 p2) d in
  returned o12 = returned o ∧ store o12 = store o.
Proof.
  cbn. rewrite (update_task_eq task_id p1 d), (update_task_eq task_id _ d).
  destruct (tasks d !! task_id) as [row|] eqn:Hrow; cbn.
  - rewrite update_task_eq. cbn. rewrite lookup_insert_eq. cbn.
    by rewrite patched_later, write_row_write_row.
  - by rewrite update_task_eq, Hrow.
Qed.

(** X3. [update_task] is idempotent: repeating a call with the same id and
    patch returns the same result and leaves the store as the first call
    left it. *)
Theorem update_task_idempotent d task_id p :
  let o1 := update_task task_id p d in
  let o2 := update_task task_id p (store o1) in
  returned o2 = returned o1 ∧ store o2 = store o1.
Proof.
  cbn. rewrite (update_task_eq task_id p d).
  destruct (tasks d !! task_id) as [row|] eqn:Hrow; cbn.
  - rewrite update_task_eq. cbn. rewrite lookup_insert_eq. cbn.
    rewrite patched_later, write_row_write_row.
    by replace (later_patch p p) with p by by destruct p as [[?|] [?|]].
  - by rewrite update_task_eq, Hrow.
Qed.

(** ** Deletion *)

(** X4. [delete_task] removes one record at most: a lookup of another id
    returns what it returned before, and the number of stored records
    drops by one when the id was present and stays when it was not. *)
Theorem delete_task_frame d task_id other :
  other ≠ task_id →
  returned (get_task_by_id other (store (delete_task task_id d)))
    = returned (get_task_by_id other d) ∧
  size (tasks d) =
    (if returned (delete_task task_id d) is Ok true then 1 else 0)
    + size (tasks (store (delete_task task_id d))).
Proof.
  intros Hne. rewrite !get_task_by_id_eq, delete_task_eq. cbn.
  destruct (tasks d !! task_id) as [row|] eqn:Hrow; cbn; [|done].
  rewrite lookup_delete_ne by done. split; [done|].
  rewrite map_size_delete_Some by eauto.
  assert (size (tasks d) ≠ 0); [|lia].
  intros Hz%map_size_empty_inv. by rewrite Hz, lookup_empty in Hrow.
Qed.

Lemma delete_task_frame_witness :
  (1 ≠ 2)%Z ∧
  returned (get_task_by_id 1
    (store (delete_task 2
       (store (create_task 4%Z (TaskCreate.mk "Call home") one_task)))))
  = returned (get_task_by_id 1
       (store (create_task 4%Z (TaskCreate.mk "Call home") one_task))).
Proof.
  assert (1 ≠ 2)%Z as Hne by lia.
  split; [exact Hne|].
  exact (proj1 (delete_task_frame
                  (store (create_task 4%Z (TaskCreate.mk "Call home") one_task))
                  2 1 Hne)).
Defined.

(** X5. Deleting an id a second time returns [false] and changes nothing:
    the store is the one the first deletion left, and the only gateway
    call is the lookup. *)
Theorem delete_task_twice d task_id :
  let o1 := delete_task task_id d in
  let o2 := delete_task task_id (store o1) in
  returned o2 = Ok false ∧ store o2 = store o1 ∧
  issued o2 = [call_get task_id].
Proof.
  cbn. rewrite (delete_task_eq task_id d).
  destruct (tasks d !! task_id) as [row|] eqn:Hrow; cbn.
  - rewrite delete_task_eq. cbn. by rewrite lookup_delete_eq.
  - by rewrite delete_task_eq, Hrow.
Qed.

(** ** Creation *)

(** X6. In a store whose sequence is ahead of its primary keys,
    [create_task] returns an id that no stored record had, leaves every
    stored record as it was, adds exactly one record, and keeps the
    sequence ahead. *)
Theorem create_task_frame d utcnow task_data :
  fresh_ids d →
  let o := create_task utcnow task_data d in
  ∃ t new_id,
    returned o = Ok t ∧ id t = Some new_id ∧
    returned (get_task_by_id new_id d) = Ok None ∧
    (∀ k t0, stored d k t0 → stored (store o) k t0) ∧
    size (tasks (store o)) = S (size (tasks d)) ∧
    fresh_ids (store o).
Proof.
  intros Hd o. subst o. rewrite create_task_eq. cbn.
  assert (tasks d !! tasks_id_seq d = None) as Hnew.
  { destruct (tasks d !! tasks_id_seq d) as [row|] eqn:Hrow; [|done].
    apply Hd in Hrow. cbn in Hrow. lia. }
  eexists _, _. split_and!; try done.
  - rewrite get_task_by_id_eq. cbn. by rewrite Hnew.
  - intros k t0 (row & Hrow & ->)%stored_row. apply stored_row.
    exists row. split; [|done]. cbn.
    rewrite lookup_insert_ne; [done|]. congruence.
  - by rewrite map_size_insert_None.
  - pose proof (fresh_ids_call (CreateTask utcnow task_data) d Hd) as Hc.
    cbn in Hc. by rewrite create_task_eq in Hc.
Qed.

Lemma create_task_frame_witness :
  fresh_ids one_task ∧
  ∃ t new_id,
    returned (create_task 4%Z (TaskCreate.mk "Call home") one_task) = Ok t ∧
    id t = Some new_id ∧
    returned (get_task_by_id new_id one_task) = Ok None.
Proof.
  assert (fresh_ids one_task) as Hfresh
    by (apply (bool_decide_unpack (fresh_ids one_task)); vm_compute; exact I).
  split; [exact Hfresh|].
  destruct (create_task_frame one_task 4%Z (TaskCreate.mk "Call home") Hfresh)
    as (t & new_id & Ht & Hid & Hnone & _).
  exists t, new_id. split_and!; assumption.
Defined.

(** ** The list and the statistics *)

Lemma load_row_inj : Inj (=) (=) load_row.
Proof.
  intros [k1 [s1 c1 ts1]] [k2 [s2 c2 ts2]]. unfold load_row, load. cbn.
  by intros [= -> -> -> ->].
Qed.

Lemma select_rows_Permutation q d : select_rows q d ≡ₚ map_to_list (tasks d).
Proof. destruct q; cbn; [done|]. apply merge_sort_Permutation. Qed.

Lemma elem_of_listed d t :
  t ∈ load_row <$> select_rows select_Task_order_by_desc_created_at d
  ↔ ∃ k, stored d k t.
Proof.
  rewrite select_rows_Permutation, list_elem_of_fmap. split.
  - intros ([k row] & -> & Hin%elem_of_map_to_list). exists k.
    apply stored_row. eauto.
  - intros (k & (row & Hrow & ->)%stored_row). exists (k, row).
    split; [done|]. by apply elem_of_map_to_list.
Qed.

(** X7. [get_all_tasks] returns exactly the stored records, each once: a
    task is in the list if and only if [get_task_by_id] finds it under some
    id, no id occurs twice in the list, none is [None], and the length of
    the list is the number of stored records. *)
Theorem get_all_tasks_lists_stored d :
  ∃ l,
    returned (get_all_tasks d) = Ok l ∧
    (∀ t, t ∈ l ↔ ∃ k, stored d k t) ∧
    NoDup (id <$> l) ∧
    Forall (λ t, is_Some (id t)) l ∧
    length l = size (tasks d).
Proof.
  rewrite get_all_tasks_eq. cbn [returned]. eexists. split; [done|].
  set (q := select_Task_order_by_desc_created_at).
  pose proof (select_rows_Permutation q d) as Hperm.
  change (map load_row ?l) with (load_row <$> l).
  split_and!.
  - apply elem_of_listed.
  - rewrite <- list_fmap_compose, Hperm.
    assert (id ∘ load_row = Some ∘ fst) as -> by done.
    rewrite list_fmap_compose. apply (NoDup_fmap_2 Some).
    apply NoDup_fst_map_to_list.
  - apply Forall_fmap, Forall_forall. intros [k row] _. by eexists.
  - by rewrite length_fmap, Hperm, length_map_to_list.
Qed.

(** X8. The statistics agree with the list: for every store, ["total"] is
    the length of the list [get_all_tasks] returns, ["completed"] the
    number of tasks in it with a true [completed], and ["pending"] the
    number of the others. *)
Theorem statistics_match_list d :
  ∃ l,
    returned (get_all_tasks d) = Ok l ∧
    statistic "total" d = Some (Z.of_nat (length l)) ∧
    statistic "completed" d =
      Some (Z.of_nat (length (filter (λ t, completed t = true) l))) ∧
    statistic "pending" d =
      Some (Z.of_nat (length (filter (λ t, completed t = false) l))).
Proof.
  unfold statistic. rewrite get_all_tasks_eq, get_task_statistics_eq.
  cbn [returned]. eexists. split; [done|].
  set (q := select_Task_order_by_desc_created_at).
  pose proof (select_rows_Permutation q d) as Hperm.
  change (map load_row ?l) with (load_row <$> l).
  rewrite !sum_completed_length. rewrite !Hperm.
  set (l := load_row <$> map_to_list (tasks d)).
  unfold statistics. split_and!; try done.
  rewrite lookup_insert_ne, lookup_insert_ne, lookup_insert_eq by done.
  f_equal.
  assert (length l = length (filter (λ t, completed t = true) l)
                     + length (filter (λ t, completed t = false) l)); [|lia].
  clear. induction l as [|t l IH]; [done|].
  rewrite !filter_cons.
  repeat case_decide; cbn; try lia; destruct (completed t); congruence.
Qed.

(** ** How the operations move the statistics *)

Lemma statistic_total d :
  statistic "total" d = Some (Z.of_nat (size (tasks d))).
Proof.
  unfold statistic. rewrite get_task_statistics_eq. cbn.
  by rewrite length_loaded.
Qed.

Lemma statistic_completed d :
  statistic "completed" d =
  Some (Z.of_nat (size (completed_rows (tasks d)))).
Proof.
  unfold statistic. rewrite get_task_statistics_eq. cbn.
  by rewrite sum_completed_length, length_loaded_completed.
Qed.

Lemma statistic_pending d :
  statistic "pending" d =
  Some (Z.of_nat (size (tasks d))
        - Z.of_nat (size (completed_rows (tasks d))))%Z.
Proof.
  unfold statistic. rewrite get_task_statistics_eq. cbn.
  by rewrite sum_completed_length, length_loaded_completed, length_loaded.
Qed.

Lemma completed_rows_insert k row row' (m : gmap Z Row) :
  m !! k = Some row →
  size (completed_rows (<[k := row']> m)) + as_count (row_completed row)
  = size (completed_rows m) + as_count (row_completed row').
Proof.
  intros Hk. unfold completed_rows.
  assert (∀ r : Row, m !! k = Some r → row_completed r = true →
            size (filter (λ kr : Z * Row, row_completed kr.2 = true) m) ≠ 0)
    as Hpos.
  { intros r Hr Hc Hz%map_size_empty_inv.
    assert (filter (λ kr : Z * Row, row_completed kr.2 = true) m !! k
            = Some r) as Hin by by apply map_lookup_filter_Some.
    by rewrite Hz, lookup_empty in Hin. }
  rewrite map_filter_insert. case_decide as Hc'; cbn in Hc'.
  - rewrite Hc'. destruct (row_completed row) eqn:Hc; cbn.
    + rewrite map_size_insert_Some; [done|].
      exists row. by apply map_lookup_filter_Some.
    + rewrite map_size_insert_None; [lia|].
      apply map_lookup_filter_None. right. intros r Hr. cbn. congruence.
  - apply not_true_is_false in Hc'. rewrite Hc'.
    rewrite map_filter_delete. destruct (row_completed row) eqn:Hc; cbn.
    + rewrite map_size_delete_Some
        by (exists row; by apply map_lookup_filter_Some).
      specialize (Hpos row Hk Hc). lia.
    + rewrite map_size_delete_None; [lia|].
      apply map_lookup_filter_None. right. intros r Hr. cbn. congruence.
Qed.

(** X9. Toggling a stored task moves it between the two counts: the total
    is the same, and ["completed"] goes down by one and ["pending"] up by
    one when the task was completed, the other way round when it was
    pending. *)
Theorem statistics_after_toggle d task_id t :
  stored d task_id t →
  let d' := store (toggle_task_completion task_id d) in
  let step := (if completed t then -1 else 1)%Z in
  ∃ total done pending,
    statistic "total" d = Some total ∧
    statistic "completed" d = Some done ∧
    statistic "pending" d = Some pending ∧
    statistic "total" d' = Some total ∧
    statistic "completed" d' = Some (done + step)%Z ∧
    statistic "pending" d' = Some (pending - step)%Z.
Proof.
  intros (row & Hrow & ->)%stored_row. cbn.
  rewrite toggle_task_completion_eq, Hrow. cbn.
  rewrite !statistic_total, !statistic_completed, !statistic_pending.
  unfold write_row. cbn [tasks].
  rewrite map_size_insert_Some by eauto.
  pose proof (completed_rows_insert task_id row (toggled row) (tasks d) Hrow)
    as Hsize.
  eexists _, _, _. split_and!; try done; f_equal;
    cbn in Hsize; destruct (row_completed row); cbn in Hsize; lia.
Qed.

Lemma statistics_after_toggle_witness :
  stored one_task 1
    {| id := Some 1%Z; title := "Buy milk"; completed := false;
       created_at := 3%Z |} ∧
  statistic "completed" (store (toggle_task_completion 1 one_task))
    = Some 1%Z.
Proof.
  assert (stored one_task 1
            {| id := Some 1%Z; title := "Buy milk"; completed := false;
               created_at := 3%Z |}) as Hst by (vm_compute; reflexivity).
  split; [exact Hst|].
  destruct (statistics_after_toggle one_task 1 _ Hst)
    as (total & n & pending & _ & Hn & _ & _ & Hn' & _).
  assert (n = 0%Z) as -> by (vm_compute in Hn; congruence).
  exact Hn'.
Defined.

(** X10. In a store whose sequence is ahead of its primary keys, creating
    a task raises ["total"] and ["pending"] by one and leaves
    ["completed"] as it was. *)
Theorem statistics_after_create d utcnow task_data :
  fresh_ids d →
  let d' := store (create_task utcnow task_data d) in
  ∃ total done pending,
    statistic "total" d = Some total ∧
    statistic "completed" d = Some done ∧
    statistic "pending" d = Some pending ∧
    statistic "total" d' = Some (total + 1)%Z ∧
    statistic "completed" d' = Some done ∧
    statistic "pending" d' = Some (pending + 1)%Z.
Proof.
  intros Hd. cbn. rewrite create_task_eq. cbn.
  assert (tasks d !! tasks_id_seq d = None) as Hnew.
  { destruct (tasks d !! tasks_id_seq d) as [row|] eqn:Hrow; [|done].
    apply Hd in Hrow. cbn in Hrow. lia. }
  rewrite !statistic_total, !statistic_completed, !statistic_pending.
  cbn [tasks]. rewrite map_size_insert_None by done.
  unfold completed_rows.
  rewrite map_filter_insert_not' by (cbn; intros; congruence).
  eexists _, _, _. split_and!; try done; f_equal; lia.
Qed.

Lemma statistics_after_create_witness :
  fresh_ids one_task ∧
  statistic "total"
    (store (create_task 4%Z (TaskCreate.mk "Call home") one_task))
  = Some 2%Z.
Proof.
  assert (fresh_ids one_task) as Hfresh
    by (apply (bool_decide_unpack (fresh_ids one_task)); vm_compute; exact I).
  split; [exact Hfresh|].
  destruct (statistics_after_create one_task 4%Z (TaskCreate.mk "Call home")
              Hfresh) as (total & n & pending & Ht & _ & _ & Ht' & _).
  assert (total = 1%Z) as -> by (vm_compute in Ht; congruence).
  exact Ht'.
Defined.

(** X11. Deleting a stored task lowers ["total"] by one, and with it the
    count the task was in: ["completed"] when it was completed,
    ["pending"] when it was not. *)
Theorem statistics_after_delete d task_id t :
  stored d task_id t →
  let d' := store (delete_task task_id d) in
  ∃ total done pending,
    statistic "total" d = Some total ∧
    statistic "completed" d = Some done ∧
    statistic "pending" d = Some pending ∧
    statistic "total" d' = Some (total - 1)%Z ∧
    statistic "completed" d' =
      Some (if completed t then done - 1 else done)%Z ∧
    statistic "pending" d' =
      Some (if completed t then pending else pending - 1)%Z.
Proof.
  intros (row & Hrow & ->)%stored_row. cbn.
  rewrite delete_task_eq, Hrow. cbn.
  rewrite !statistic_total, !statistic_completed, !statistic_pending.
  cbn [tasks].
  assert (size (tasks d) ≠ 0) as Hpos.
  { intros Hz%map_size_empty_inv. by rewrite Hz, lookup_empty in Hrow. }
  rewrite map_size_delete_Some by eauto.
  unfold completed_rows. rewrite map_filter_delete.
  destruct (row_completed row) eqn:Hc.
  - assert (filter (λ kr : Z * Row, row_completed kr.2 = true) (tasks d)
              !! task_id = Some row) as Hin
      by by apply map_lookup_filter_Some.
    rewrite map_size_delete_Some by eauto.
    assert (size (filter (λ kr : Z * Row, row_completed kr.2 = true)
                    (tasks d)) ≠ 0) as Hpos'.
    { intros Hz%map_size_empty_inv. by rewrite Hz, lookup_empty in Hin. }
    eexists _, _, _. split_and!; try done; f_equal; lia.
  - rewrite map_size_delete_None; last first.
    { apply map_lookup_filter_None. right. intros r Hr. cbn. congruence. }
    eexists _, _, _. split_and!; try done; f_equal; lia.
Qed.

Lemma statistics_after_delete_witness :
  stored one_task 1
    {| id := Some 1%Z; title := "Buy milk"; completed := false;
       created_at := 3%Z |} ∧
  statistic "total" (store (delete_task 1 one_task)) = Some 0%Z.
Proof.
  assert (stored one_task 1
            {| id := Some 1%Z; title := "Buy milk"; completed := false;
               created_at := 3%Z |}) as Hst by (vm_compute; reflexivity).
  split; [exact Hst|].
  destruct (statistics_after_delete one_task 1 _ Hst)
    as (total & n & pending & Ht & _ & _ & Ht' & _).
  assert (total = 1%Z) as -> by (vm_compute in Ht; congruence).
  exact Ht'.
Defined.

(** ** The length constraint *)

Lemma TaskCreate_init_Ok s task_data :
  TaskCreate.init s = Ok task_data →
  task_data = TaskCreate.mk s ∧ String.length s ≤ max_length.
Proof. unfold TaskCreate.init. case_decide; [|done]. by intros [= <-]. Qed.

Lemma TaskUpdate_init_Ok v c p :
  TaskUpdate.init (Passed v) (Passed c) = Ok p →
  p = TaskUpdate.mk v c ∧
  match v with Some s => String.length s ≤ max_length | None => True end.
Proof.
  unfold TaskUpdate.init. cbn. destruct v as [s|]; [|by intros [= <-]].
  case_decide; [|done]. by intros [= <-].
Qed.

Lemma titles_bounded_call c d :
  validated c → titles_bounded d → titles_bounded (call_store c d).
Proof.
  intros Hc Hd. destruct c as [utcnow task_data| |k|k p|k|k|]; cbn.
  - rewrite create_task_eq. cbn. apply map_Forall_insert_2; [|done]. cbn.
    by apply TaskCreate_init_Ok in Hc as [_ ?].
  - by rewrite get_all_tasks_eq.
  - by rewrite get_task_by_id_eq.
  - rewrite update_task_eq. destruct (tasks d !! k) as [row|] eqn:Hk; [|done].
    cbn. apply map_Forall_insert_2; [|done]. cbn.
    apply TaskUpdate_init_Ok in Hc as [_ Hlen].
    destruct (TaskUpdate.title p); [done|]. by apply (Hd k row).
  - rewrite toggle_task_completion_eq.
    destruct (tasks d !! k) as [row|] eqn:Hk; [|done].
    cbn. apply map_Forall_insert_2; [|done]. cbn. by apply (Hd k row).
  - rewrite delete_task_eq. destruct (tasks d !! k) as [row|] eqn:Hk; [|done].
    cbn. by apply map_Forall_delete.
  - by rewrite get_task_statistics_eq.
Qed.

(** X12. The service keeps the length constraint of the schemas: when
    every stored title has at most 200 characters and the data of every
    call was accepted by [TaskCreate] or [TaskUpdate], every stored title
    has at most 200 characters after the calls, whatever the calls are. *)
Theorem titles_bounded_run cs d :
  titles_bounded d → Forall validated cs → titles_bounded (run cs d).
Proof.
  revert d. induction cs as [|c cs IH]; intros d Hd Hcs; [done|].
  apply Forall_cons in Hcs as [Hc Hcs]. cbn.
  by apply IH; [apply titles_bounded_call|].
Qed.

Lemma titles_bounded_run_witness :
  titles_bounded one_task ∧
  Forall validated
    [CreateTask 4%Z (TaskCreate.mk "Call home");
     UpdateTask 1 (TaskUpdate.mk (Some "") (Some true)); DeleteTask 2] ∧
  titles_bounded
    (run [CreateTask 4%Z (TaskCreate.mk "Call home");
          UpdateTask 1 (TaskUpdate.mk (Some "") (Some true)); DeleteTask 2]
       one_task).
Proof.
  assert (titles_bounded one_task) as Hd
    by (apply (bool_decide_unpack (titles_bounded one_task)); vm_compute;
        exact I).
  assert (Forall validated
            [CreateTask 4%Z (TaskCreate.mk "Call home");
             UpdateTask 1 (TaskUpdate.mk (Some "") (Some true)); DeleteTask 2])
    as Hcs by (repeat constructor).
  split; [exact Hd|]. split; [exact Hcs|].
  exact (titles_bounded_run _ one_task Hd Hcs).
Defined.

(* ===================================================================== *)
(** * Part 7. Properties of the page                                       *)
(* ===================================================================== *)

(** ** Stripping *)

Lemma lstrip_head s :
  match lstrip s with
  | EmptyString => True
  | String c _ => isspace c = false
  end.
Proof.
  induction s as [|c s IH]; cbn; [done|].
  destruct (isspace c) eqn:Hc; [done|]. by rewrite Hc.
Qed.

Lemma rstrip_cons c s :
  rstrip (String c s) =
  match rstrip s with
  | EmptyString => if isspace c then EmptyString else String c EmptyString
  | r => String c r
  end.
Proof. done. Qed.

Lemma rstrip_idemp s : rstrip (rstrip s) = rstrip s.
Proof.
  induction s as [|c s IH]; [done|]. rewrite rstrip_cons.
  destruct (rstrip s) as [|c' r] eqn:Hr.
  - destruct (isspace c) eqn:Hc; [done|]. cbn. by rewrite Hc.
  - by rewrite rstrip_cons, IH.
Qed.

Lemma rstrip_head c s :
  isspace c = false → ∃ r, rstrip (String c s) = String c r.
Proof.
  intros Hc. cbn. destruct (rstrip s); rewrite ?Hc; eauto.
Qed.

Lemma strip_head s :
  match strip s with
  | EmptyString => True
  | String c _ => isspace c = false
  end.
Proof.
  unfold strip. pose proof (lstrip_head s) as Hl.
  destruct (lstrip s) as [|c s'] eqn:Hs; [done|].
  destruct (rstrip_head c s' Hl) as [r ->]. done.
Qed.

Lemma strip_idemp s : strip (strip s) = strip s.
Proof.
  pose proof (strip_head s) as Hh. unfold strip at 1.
  destruct (strip s) as [|c r] eqn:Hs; [done|].
  cbn [lstrip]. rewrite Hh, <- Hs. unfold strip. apply rstrip_idemp.
Qed.

Lemma bool_str_strip s : bool_str (strip s) = true → bool_str s = true.
Proof. by destruct s. Qed.

(** ** The handlers in closed form *)

Ltac unfold_ui :=
  cbv beta iota zeta delta
    [TodoApp.on TodoApp.pure TodoApp.and_then TodoApp.try_except TodoApp.ui
     TodoApp.service TodoApp.construct TodoApp.getitem
     TodoApp.database TodoApp.ui_calls].

Lemma statistics_total t c p : statistics t c p !! "total" = Some t.
Proof. unfold statistics. by rewrite lookup_insert_eq. Qed.

Lemma statistics_completed t c p : statistics t c p !! "completed" = Some c.
Proof.
  unfold statistics. by rewrite lookup_insert_ne, lookup_insert_eq by done.
Qed.

Lemma statistics_pending t c p : statistics t c p !! "pending" = Some p.
Proof.
  unfold statistics.
  by rewrite lookup_insert_ne, lookup_insert_ne, lookup_insert_eq by done.
Qed.

Lemma for_in_items l d tr :
  TodoApp.for_in l (λ task, TodoApp.ui (TodoApp.create_task_item task))
    (TodoApp.mkPage d tr)
  = (TodoApp.Return tt,
     TodoApp.mkPage d (tr ++ (TodoApp.create_task_item <$> l))).
Proof.
  revert tr. induction l as [|t l IH]; intros tr; cbn.
  - unfold TodoApp.pure. by rewrite app_nil_r.
  - unfold TodoApp.and_then, TodoApp.ui. cbn. rewrite IH.
    by rewrite <- app_assoc.
Qed.

Lemma ui_eq c d tr :
  TodoApp.ui c (TodoApp.mkPage d tr)
  = (TodoApp.Return tt, TodoApp.mkPage d (tr ++ [c])).
Proof. done. Qed.

Lemma service_eq {A} (method : Database → Outcome A) d tr :
  TodoApp.service method (TodoApp.mkPage d tr)
  = (match returned (method d) with
     | Ok a => TodoApp.Return a
     | Raise e => TodoApp.Raised (TodoApp.Propagated e)
     end, TodoApp.mkPage (store (method d)) tr).
Proof. done. Qed.

(** One step of a handler whose next call is on a widget or the service. *)
Ltac ui_step :=
  unfold TodoApp.and_then, TodoApp.try_except;
  rewrite ?ui_eq, ?service_eq; cbv beta iota.

Lemma refresh_tasks_eq d tr :
  TodoApp.refresh_tasks (TodoApp.mkPage d tr)
  = (TodoApp.Return tt, TodoApp.mkPage d (tr ++ rendered d)).
Proof.
  unfold TodoApp.refresh_tasks, TodoApp.create_statistics_cards. ui_step.
  rewrite get_task_statistics_eq. cbv beta iota zeta. cbn [returned store].
  unfold TodoApp.getitem.
  rewrite statistics_total, statistics_completed, statistics_pending.
  ui_step. rewrite get_all_tasks_eq. cbn [returned store].
  unfold rendered. change (map load_row ?l) with (load_row <$> l).
  destruct (load_row <$>
              select_rows select_Task_order_by_desc_created_at d)
    as [|t l] eqn:Hl.
  - ui_step. by rewrite <- !app_assoc.
  - rewrite for_in_items. by rewrite <- !app_assoc.
Qed.

(** ** What the page shows *)

(** X13. [refresh_tasks] leaves the store as it is and shows it: after
    clearing both containers it creates the three cards with the numbers
    of [get_task_statistics], and then, when [get_all_tasks] returns no
    task, the one card for the empty list, and otherwise one item per task
    in the order of the list; the number on the first card is the number
    of items. *)
Theorem refresh_tasks_shows_store d tr :
  ∃ l total done pending,
    returned (get_all_tasks d) = Ok l ∧
    statistic "total" d = Some total ∧
    statistic "completed" d = Some done ∧
    statistic "pending" d = Some pending ∧
    total = Z.of_nat (length l) ∧
    TodoApp.refresh_tasks (TodoApp.mkPage d tr)
    = (TodoApp.Return tt,
       TodoApp.mkPage d
         (tr ++ [TodoApp.tasks_container_clear; TodoApp.stats_container_clear;
                 TodoApp.stats_card "Total Tasks" total;
                 TodoApp.stats_card "Completed" done;
                 TodoApp.stats_card "Pending" pending]
             ++ if decide (l = []) then [TodoApp.no_tasks_card]
                else TodoApp.create_task_item <$> l)).
Proof.
  rewrite refresh_tasks_eq, get_all_tasks_eq. unfold statistic.
  rewrite get_task_statistics_eq. cbn [returned].
  eexists _, _, _, _. split_and!; try done.
  - change (map load_row ?l) with (load_row <$> l).
    by rewrite !length_fmap, select_rows_Permutation.
  - unfold rendered. change (map load_row ?l) with (load_row <$> l).
    do 3 f_equal.
    by destruct (load_row <$>
                   select_rows select_Task_order_by_desc_created_at d).
Qed.

(** ** Adding a task *)

Lemma construct_eq {A} (x : Except A) d tr :
  TodoApp.construct x (TodoApp.mkPage d tr)
  = (match x with
     | Ok a => TodoApp.Return a
     | Raise e => TodoApp.Raised (TodoApp.Propagated e)
     end, TodoApp.mkPage d tr).
Proof. done. Qed.

Lemma bool_str_false s : bool_str s = false ↔ s = EmptyString.
Proof. by destruct s. Qed.

Lemma add_task_eq utcnow v d tr :
  TodoApp.add_task utcnow v (TodoApp.mkPage d tr) =
  match v with
  | Some s =>
      if bool_str (strip s) then
        if decide (String.length (strip s) ≤ max_length) then
          let d' := store (create_task utcnow (TaskCreate.mk (strip s)) d) in
          (TodoApp.Return tt,
           TodoApp.mkPage d'
             (((tr ++ [TodoApp.task_input_set_value ""]) ++ rendered d')
              ++ [TodoApp.ui_notify "Task added successfully!"
                    TodoApp.positive]))
        else
          (TodoApp.Return tt,
           TodoApp.mkPage d
             ((tr ++ [TodoApp.logger_error "Error adding task: "
                       (TodoApp.Propagated ValidationError)])
              ++ [TodoApp.ui_notify_exception "Error adding task: "
                    (TodoApp.Propagated ValidationError) TodoApp.negative]))
      else
        (TodoApp.Return tt,
         TodoApp.mkPage d
           (tr ++ [TodoApp.ui_notify "Please enter a task title"
                     TodoApp.warning]))
  | None =>
      (TodoApp.Return tt,
       TodoApp.mkPage d
         (tr ++ [TodoApp.ui_notify "Please enter a task title"
                   TodoApp.warning]))
  end.
Proof.
  unfold TodoApp.add_task. destruct v as [s|]; [|done].
  destruct (bool_str (strip s)) eqn:Hs.
  - rewrite (bool_str_strip s Hs). cbn [negb orb].
    ui_step. rewrite construct_eq. unfold TaskCreate.init.
    case_decide.
    + ui_step. rewrite create_task_eq. cbn [returned store].
      ui_step. by rewrite refresh_tasks_eq.
    + by ui_step.
  - by rewrite orb_true_r.
Qed.

(** X14. [add_task] with nothing to add does nothing but warn: when the
    value of the input is [None], empty, or white space only, the store is
    as before, the input keeps its value, nothing is shown again, and the
    one call on the page is the warning to enter a title. *)
Theorem add_task_blank utcnow v d tr :
  blank v →
  TodoApp.add_task utcnow v (TodoApp.mkPage d tr)
  = (TodoApp.Return tt,
     TodoApp.mkPage d
       (tr ++ [TodoApp.ui_notify "Please enter a task title"
                 TodoApp.warning])).
Proof.
  intros Hv. rewrite add_task_eq. destruct v as [s|]; [|done].
  cbn in Hv. by rewrite Hv.
Qed.

Lemma add_task_blank_witness :
  blank (Some "  	 ") ∧
  TodoApp.database (TodoApp.add_task 9%Z (Some "  	 ")
                      (TodoApp.mkPage one_task [])).2 = one_task.
Proof.
  assert (blank (Some "  	 ")) as Hv by (vm_compute; reflexivity).
  split; [exact Hv|].
  exact (f_equal (λ r, TodoApp.database r.2)
           (add_task_blank 9%Z _ one_task [] Hv)).
Defined.

(** X15. [add_task] with a title stores it stripped: when what is left of
    the input after stripping is not empty and has at most 200 characters,
    the handler creates the task with the stripped title and [completed]
    false, empties the input, shows the new store, the new task among the
    items, and ends with the notification of success. *)
Theorem add_task_creates_stripped utcnow s d tr :
  strip s ≠ EmptyString →
  String.length (strip s) ≤ max_length →
  ∃ t d',
    create_task utcnow (TaskCreate.mk (strip s)) d
      = {| returned := Ok t; store := d';
           issued := [call_add; call_commit; call_refresh] |} ∧
    title t = strip s ∧ completed t = false ∧ created_at t = utcnow ∧
    clean_title (title t) ∧
    TodoApp.create_task_item t ∈ rendered d' ∧
    TodoApp.add_task utcnow (Some s) (TodoApp.mkPage d tr)
    = (TodoApp.Return tt,
       TodoApp.mkPage d'
         (tr ++ [TodoApp.task_input_set_value ""] ++ rendered d'
             ++ [TodoApp.ui_notify "Task added successfully!"
                   TodoApp.positive])).
Proof.
  intros Hs Hlen. rewrite add_task_eq.
  assert (bool_str (strip s) = true) as Hb
    by (destruct (bool_str (strip s)) eqn:Hb; [done|];
        by apply bool_str_false in Hb).
  rewrite Hb, decide_True by done. cbn zeta.
  rewrite create_task_eq. eexists _, _. split; [done|].
  cbn [title completed created_at store].
  split_and!; try done.
  - split_and!; [done|apply strip_idemp|done].
  - match goal with |- context [rendered ?x] => set (d' := x) end.
    unfold rendered. apply elem_of_app. right.
    assert ({| id := Some (tasks_id_seq d); title := strip s;
               completed := false; created_at := utcnow |}
            ∈ load_row <$> select_rows select_Task_order_by_desc_created_at d')
      as Ht.
    { apply elem_of_listed. exists (tasks_id_seq d). apply stored_row.
      eexists. split; [apply lookup_insert_eq|done]. }
    destruct (load_row <$> select_rows _ d') as [|t0 l];
      [by apply elem_of_nil in Ht|].
    by apply list_elem_of_fmap_2.
  - by rewrite <- !app_assoc.
Qed.

Lemma add_task_creates_stripped_witness :
  strip "  Call home " ≠ EmptyString ∧
  String.length (strip "  Call home ") ≤ max_length ∧
  ∃ t d',
    create_task 9%Z (TaskCreate.mk (strip "  Call home ")) one_task
      = {| returned := Ok t; store := d';
           issued := [call_add; call_commit; call_refresh] |} ∧
    title t = "Call home".
Proof.
  assert (strip "  Call home " ≠ EmptyString) as Hs by (vm_compute; discriminate).
  assert (String.length (strip "  Call home ") ≤ max_length) as Hlen
    by (vm_compute; lia).
  split; [exact Hs|]. split; [exact Hlen|].
  destruct (add_task_creates_stripped 9%Z _ one_task [] Hs Hlen)
    as (t & d' & Hcreate & Ht & _).
  exists t, d'. split; [exact Hcreate | exact Ht].
Defined.

(** X16. [add_task] with a title that is too long stores nothing: when what
    is left of the input after stripping has more than 200 characters,
    [TaskCreate] raises, the handler catches the exception, logs it,
    shows it as a negative notification, and returns; the store is as
    before, the input keeps its value and the list is not shown again. *)
Theorem add_task_too_long utcnow s d tr :
  max_length < String.length (strip s) →
  TodoApp.add_task utcnow (Some s) (TodoApp.mkPage d tr)
  = (TodoApp.Return tt,
     TodoApp.mkPage d
       (tr ++ [TodoApp.logger_error "Error adding task: "
                 (TodoApp.Propagated ValidationError);
               TodoApp.ui_notify_exception "Error adding task: "
                 (TodoApp.Propagated ValidationError) TodoApp.negative])).
Proof.
  intros Hlen. rewrite add_task_eq.
  destruct (strip s) as [|c r] eqn:Hs; [cbn in Hlen; unfold max_length in *; lia|].
  cbn [bool_str]. rewrite decide_False by lia. by rewrite <- app_assoc.
Qed.

Lemma add_task_too_long_witness :
  max_length < String.length (strip (String.concat "" (replicate 201 "x"))) ∧
  TodoApp.database
    (TodoApp.add_task 9%Z (Some (String.concat "" (replicate 201 "x")))
       (TodoApp.mkPage one_task [])).2 = one_task.
Proof.
  assert (max_length
          < String.length (strip (String.concat "" (replicate 201 "x"))))
    as Hlen by (vm_compute; lia).
  split; [exact Hlen|].
  exact (f_equal (λ r, TodoApp.database r.2)
           (add_task_too_long 9%Z _ one_task [] Hlen)).
Defined.

(** ** Toggling from the page *)

(** X17. The handler of the checkbox reports what the service did.  For an
    id that is stored, it toggles the task, announces the state the task
    is in after the toggle ("completed" when it was pending, "pending"
    when it was completed) and shows the new store; for an id that is not
    stored it warns that the task was not found, shows nothing again and
    leaves the store as it was. *)
Theorem toggle_handler_reports task_id d tr :
  let d' := store (toggle_task_completion task_id d) in
  TodoApp.toggle_task_completion (Some task_id) (TodoApp.mkPage d tr) =
  match returned (get_task_by_id task_id d) with
  | Ok (Some t) =>
      (TodoApp.Return tt,
       TodoApp.mkPage d'
         (tr ++ [TodoApp.ui_notify
                   ("Task marked as "
                    ++ if completed t then "pending" else "completed")
                   TodoApp.positive]
             ++ rendered d'))
  | _ =>
      (TodoApp.Return tt,
       TodoApp.mkPage d
         (tr ++ [TodoApp.ui_notify "Task not found" TodoApp.warning]))
  end.
Proof.
  cbn zeta. unfold TodoApp.toggle_task_completion. ui_step.
  rewrite get_task_by_id_eq, toggle_task_completion_eq. cbn [returned].
  destruct (tasks d !! task_id) as [row|] eqn:Hrow;
    cbn [returned store fmap option_fmap option_map].
  - ui_step. rewrite refresh_tasks_eq. cbn [completed load toggled row_completed].
    rewrite <- app_assoc. by destruct (row_completed row).
  - by ui_step.
Qed.

(** ** The dialogs *)

(** X18. A dialog opens for a stored task only, and opening changes
    nothing in the store.  For a stored id, [edit_task_dialog] opens the
    dialog with the stored title and flag in its widgets and
    [confirm_delete_task] the dialog that names the stored title; for an
    id that is not stored both warn that the task was not found and open
    nothing. *)
Theorem dialogs_open_for_stored_tasks task_id d tr :
  match returned (get_task_by_id task_id d) with
  | Ok (Some t) =>
      TodoApp.edit_task_dialog (Some task_id) (TodoApp.mkPage d tr)
      = (TodoApp.Return true,
         TodoApp.mkPage d
           (tr ++ [TodoApp.edit_dialog (title t) (completed t)])) ∧
      TodoApp.confirm_delete_task (Some task_id) (TodoApp.mkPage d tr)
      = (TodoApp.Return true,
         TodoApp.mkPage d (tr ++ [TodoApp.delete_dialog (title t)]))
  | _ =>
      TodoApp.edit_task_dialog (Some task_id) (TodoApp.mkPage d tr)
      = (TodoApp.Return false,
         TodoApp.mkPage d
           (tr ++ [TodoApp.ui_notify "Task not found" TodoApp.warning])) ∧
      TodoApp.confirm_delete_task (Some task_id) (TodoApp.mkPage d tr)
      = (TodoApp.Return false,
         TodoApp.mkPage d
           (tr ++ [TodoApp.ui_notify "Task not found" TodoApp.warning]))
  end.
Proof.
  unfold TodoApp.edit_task_dialog, TodoApp.confirm_delete_task. ui_step.
  rewrite get_task_by_id_eq. cbn [returned store].
  destruct (tasks d !! task_id) as [row|];
    cbn [fmap option_fmap option_map]; by ui_step.
Qed.

Lemma edit_task_dialog_result_eq task_id result v c d tr :
  TodoApp.edit_task_dialog_result task_id result v c (TodoApp.mkPage d tr) =
  if decide (result = Some "save") then
    match v with
    | Some s =>
        if bool_str (strip s) then
          if decide (String.length (strip s) ≤ max_length) then
            let o := update_task task_id
                       (TaskUpdate.mk (Some (strip s)) (Some c)) d in
            (TodoApp.Return tt,
             TodoApp.mkPage (store o)
               (match returned o with
                | Ok (Some _) =>
                    (tr ++ [TodoApp.ui_notify "Task updated successfully!"
                              TodoApp.positive]) ++ rendered (store o)
                | _ => tr ++ [TodoApp.ui_notify "Task not found"
                                TodoApp.warning]
                end))
          else
            (TodoApp.Return tt,
             TodoApp.mkPage d
               ((tr ++ [TodoApp.logger_error "Error updating task: "
                         (TodoApp.Propagated ValidationError)])
                ++ [TodoApp.ui_notify_exception "Error updating task: "
                      (TodoApp.Propagated ValidationError) TodoApp.negative]))
        else
          (TodoApp.Return tt,
           TodoApp.mkPage d
             (tr ++ [TodoApp.ui_notify "Please enter a task title"
                       TodoApp.warning]))
    | None =>
        (TodoApp.Return tt,
         TodoApp.mkPage d
           (tr ++ [TodoApp.ui_notify "Please enter a task title"
                     TodoApp.warning]))
    end
  else (TodoApp.Return tt, TodoApp.mkPage d tr).
Proof.
  unfold TodoApp.edit_task_dialog_result. case_decide; [|done].
  destruct v as [s|]; [|done].
  destruct (bool_str (strip s)) eqn:Hs.
  - rewrite (bool_str_strip s Hs). cbn [negb orb].
    ui_step. rewrite construct_eq. unfold TaskUpdate.init.
    cbn [field_default]. case_decide.
    + ui_step. cbn zeta. rewrite update_task_eq.
      destruct (tasks d !! task_id) as [row|]; cbn [returned store].
      * ui_step. by rewrite refresh_tasks_eq.
      * by ui_step.
    + by ui_step.
  - by rewrite orb_true_r.
Qed.

(** X19. Only "save" edits: when the edit dialog is dismissed or submitted
    with anything but "save", the handler does nothing at all, whatever is
    in the widgets: the store is as before and no call is made on the
    page.  When it is saved with a title that is blank, the store is as
    before and the one call is the warning to enter a title. *)
Theorem edit_needs_save_and_title task_id result v c d tr :
  result ≠ Some "save" ∨ blank v →
  TodoApp.edit_task_dialog_result task_id result v c (TodoApp.mkPage d tr) =
  (TodoApp.Return tt,
   TodoApp.mkPage d
     (if decide (result = Some "save")
      then tr ++ [TodoApp.ui_notify "Please enter a task title"
                    TodoApp.warning]
      else tr)).
Proof.
  intros Hno. rewrite edit_task_dialog_result_eq.
  case_decide as Hsave; [|done].
  destruct Hno as [?|Hv]; [done|].
  destruct v as [s|]; [|done]. cbn in Hv. by rewrite Hv.
Qed.

Lemma edit_needs_save_and_title_witness :
  (Some "cancel" ≠ Some "save" ∨ blank (Some "New title")) ∧
  TodoApp.edit_task_dialog_result 1 (Some "cancel") (Some "New title") true
    (TodoApp.mkPage one_task [])
  = (TodoApp.Return tt, TodoApp.mkPage one_task []).
Proof.
  assert (Some "cancel" ≠ Some "save" ∨ blank (Some "New title")) as Hno
    by (left; discriminate).
  split; [exact Hno|].
  exact (edit_needs_save_and_title 1 (Some "cancel") (Some "New title") true
           one_task [] Hno).
Defined.

(** X20. Saving an edit writes both fields: for a stored task and a title
    that is not blank and, stripped, within 200 characters, the handler
    updates the task with the stripped title and the value of the
    checkbox, so the record then found under the id has that title and
    that flag and the [created_at] it had; the handler announces the
    update and shows the new store. *)
Theorem edit_save_writes_both task_id s c d tr t :
  stored d task_id t →
  strip s ≠ EmptyString →
  String.length (strip s) ≤ max_length →
  ∃ d',
    TodoApp.edit_task_dialog_result task_id (Some "save") (Some s) c
      (TodoApp.mkPage d tr)
    = (TodoApp.Return tt,
       TodoApp.mkPage d'
         (tr ++ [TodoApp.ui_notify "Task updated successfully!"
                   TodoApp.positive] ++ rendered d')) ∧
    d' = store (update_task task_id
                  (TaskUpdate.mk (Some (strip s)) (Some c)) d) ∧
    stored d' task_id
      {| id := id t; title := strip s; completed := c;
         created_at := created_at t |}.
Proof.
  intros (row & Hrow & ->)%stored_row Hs Hlen.
  rewrite edit_task_dialog_result_eq.
  assert (bool_str (strip s) = true) as Hb
    by (destruct (bool_str (strip s)) eqn:Hb; [done|];
        by apply bool_str_false in Hb).
  rewrite decide_True, Hb, decide_True by done. cbn zeta.
  rewrite update_task_eq, Hrow. cbn [returned store].
  eexists. split_and!; [by rewrite <- app_assoc|done|].
  apply stored_row. eexists. split; [apply lookup_insert_eq|done].
Qed.

Lemma edit_save_writes_both_witness :
  stored one_task 1
    {| id := Some 1%Z; title := "Buy milk"; completed := false;
       created_at := 3%Z |} ∧
  strip " Buy oat milk " ≠ EmptyString ∧
  String.length (strip " Buy oat milk ") ≤ max_length ∧
  ∃ d',
    d' = store (update_task 1
                  (TaskUpdate.mk (Some (strip " Buy oat milk ")) (Some true))
                  one_task) ∧
    stored d' 1
      {| id := Some 1%Z; title := strip " Buy oat milk "; completed := true;
         created_at := 3%Z |}.
Proof.
  assert (stored one_task 1
            {| id := Some 1%Z; title := "Buy milk"; completed := false;
               created_at := 3%Z |}) as Hst by (vm_compute; reflexivity).
  assert (strip " Buy oat milk " ≠ EmptyString) as Hs
    by (vm_compute; discriminate).
  assert (String.length (strip " Buy oat milk ") ≤ max_length) as Hlen
    by (vm_compute; lia).
  split; [exact Hst|]. split; [exact Hs|]. split; [exact Hlen|].
  destruct (edit_save_writes_both 1 " Buy oat milk " true one_task [] _
              Hst Hs Hlen) as (d' & _ & Hd' & Hstored).
  exists d'. split; [exact Hd' | exact Hstored].
Defined.

Lemma confirm_delete_task_result_eq task_id result d tr :
  TodoApp.confirm_delete_task_result task_id result (TodoApp.mkPage d tr) =
  if decide (result = Some "delete") then
    let o := delete_task task_id d in
    (TodoApp.Return tt,
     TodoApp.mkPage (store o)
       (match returned o with
        | Ok true =>
            (tr ++ [TodoApp.ui_notify "Task deleted successfully!"
                      TodoApp.positive]) ++ rendered (store o)
        | _ => tr ++ [TodoApp.ui_notify "Task not found" TodoApp.warning]
        end))
  else (TodoApp.Return tt, TodoApp.mkPage d tr).
Proof.
  unfold TodoApp.confirm_delete_task_result. case_decide; [|done].
  ui_step. cbn zeta. rewrite delete_task_eq.
  destruct (tasks d !! task_id) as [row|]; cbn [returned store].
  - ui_step. by rewrite refresh_tasks_eq.
  - by ui_step.
Qed.

(** X21. Only "delete" deletes.  When the confirmation dialog is dismissed
    or submitted with anything else, the handler does nothing: the store
    is as before and no call is made on the page.  When it is submitted
    with "delete", the store is the one [delete_task] leaves; if the task
    was still stored the handler announces the deletion and shows the new
    store, and if it was not it warns that the task was not found and
    shows nothing again. *)
Theorem delete_needs_confirmation task_id result d tr :
  let d' := store (delete_task task_id d) in
  TodoApp.confirm_delete_task_result task_id result (TodoApp.mkPage d tr) =
  if decide (result = Some "delete") then
    match returned (get_task_by_id task_id d) with
    | Ok (Some _) =>
        (TodoApp.Return tt,
         TodoApp.mkPage d'
           (tr ++ [TodoApp.ui_notify "Task deleted successfully!"
                     TodoApp.positive] ++ rendered d'))
    | _ =>
        (TodoApp.Return tt,
         TodoApp.mkPage d
           (tr ++ [TodoApp.ui_notify "Task not found" TodoApp.warning]))
    end
  else (TodoApp.Return tt, TodoApp.mkPage d tr).
Proof.
  cbn zeta. rewrite confirm_delete_task_result_eq. case_decide; [|done].
  cbn zeta. rewrite get_task_by_id_eq, delete_task_eq. cbn [returned].
  destruct (tasks d !! task_id) as [row|];
    cbn [returned store fmap option_fmap option_map]; [|done].
  by rewrite <- app_assoc.
Qed.

(** ** Titles stored through the page *)

Lemma titles_clean_write_row k row d :
  clean_title (row_title row) → titles_clean d →
  titles_clean (write_row k row d).
Proof. intros Hrow Hd. unfold write_row. by apply map_Forall_insert_2. Qed.

Lemma clean_title_strip s :
  bool_str (strip s) = true → String.length (strip s) ≤ max_length →
  clean_title (strip s).
Proof. intros Hs Hlen. split_and!; [done|apply strip_idemp|done]. Qed.

Lemma titles_clean_handle e d :
  titles_clean d →
  titles_clean (TodoApp.database (TodoApp.handle e (TodoApp.mkPage d [])).2).
Proof.
  intros Hd.
  destruct e as [utcnow v| |[k|]|[k|]|k result v c|[k|]|k result];
    cbn [TodoApp.handle].
  - rewrite add_task_eq. destruct v as [s|]; [|done].
    destruct (bool_str (strip s)) eqn:Hs; [|done].
    case_decide; [|done]. cbn zeta. rewrite create_task_eq.
    cbn [snd TodoApp.database store].
    apply map_Forall_insert_2; [|done]. by apply clean_title_strip.
  - by rewrite refresh_tasks_eq.
  - unfold TodoApp.toggle_task_completion. ui_step.
    rewrite toggle_task_completion_eq.
    destruct (tasks d !! k) as [row|] eqn:Hrow; cbn [returned store].
    + ui_step. rewrite refresh_tasks_eq. cbn [snd TodoApp.database].
      apply titles_clean_write_row; [|done]. by apply (Hd k row).
    + by ui_step.
  - done.
  - unfold TodoApp.edit_task_dialog. ui_step. rewrite get_task_by_id_eq.
    cbn [returned store].
    by destruct (tasks d !! k); cbn [fmap option_fmap option_map]; ui_step.
  - done.
  - rewrite edit_task_dialog_result_eq. case_decide; [|done].
    destruct v as [s|]; [|done].
    destruct (bool_str (strip s)) eqn:Hs; [|done].
    case_decide; [|done]. cbn zeta. rewrite update_task_eq.
    destruct (tasks d !! k) as [row|] eqn:Hrow;
      cbn [snd TodoApp.database store]; [|done].
    apply titles_clean_write_row; [|done]. by apply clean_title_strip.
  - unfold TodoApp.confirm_delete_task. ui_step. rewrite get_task_by_id_eq.
    cbn [returned store].
    by destruct (tasks d !! k); cbn [fmap option_fmap option_map]; ui_step.
  - done.
  - rewrite confirm_delete_task_result_eq. case_decide; [|done].
    cbn zeta. rewrite delete_task_eq.
    destruct (tasks d !! k) as [row|] eqn:Hrow;
      cbn [snd TodoApp.database store]; [|done].
    by apply map_Forall_delete.
Qed.

(** X22. The page stores clean titles only.  The service accepts an empty
    title, but no handler passes one on: when every stored title is not
    empty, has no white space at either end and has at most 200
    characters, this is so after any sequence of events of the page: added
    tasks, toggles, edits and deletions, with whatever was typed and
    whatever the dialogs were answered. *)
Theorem page_keeps_titles_clean es d :
  titles_clean d → titles_clean (TodoApp.after es d).
Proof.
  revert d. induction es as [|e es IH]; intros d Hd; [done|].
  cbn. by apply IH, titles_clean_handle.
Qed.

Lemma page_keeps_titles_clean_witness :
  titles_clean one_task ∧
  titles_clean
    (TodoApp.after
       [TodoApp.AddTask 9%Z (Some "  Call home ");
        TodoApp.AddTask 10%Z (Some "   ");
        TodoApp.EditDialogResult 1 (Some "save") (Some " ") true;
        TodoApp.EditDialogResult 1 (Some "save") (Some " Buy oat milk") true;
        TodoApp.ToggleCheckbox (Some 2%Z);
        TodoApp.DeleteDialogResult 2 (Some "delete")]
       one_task).
Proof.
  assert (titles_clean one_task) as Hd
    by (apply (bool_decide_unpack (titles_clean one_task)); vm_compute;
        exact I).
  split; [exact Hd|].
  exact (page_keeps_titles_clean _ one_task Hd).
Defined.
